(** * lnd-mcp-server: the channel query handler

    A shallow embedding of the class [ChannelQueryHandler]: fetching the
    channels of the connected node, enriching them with the alias of the
    remote peer, computing the summary statistics and selecting the answer
    for an intent.

    Conventions of the embedding:
    - a JavaScript [number] is a binary64 floating-point number, the primitive
      [float]: sums, differences, quotients and comparisons are those of
      IEEE 754 with rounding to nearest, as in JavaScript; the length of an
      array and the lengths of its filtered copies are [nat]s;
    - a [throw] is the [Throw] completion of the monad [M], which also logs
      every call to a collaborator (LND client, ln-service, formatter);
    - [lndClient.getLnd()] is called once by the fetch and once more by the
      alias resolution: the handler takes the outcome of each of these calls;
      the other collaborators answer the same call in the same way throughout
      one query; the node-info lookups of the fan-out are issued in the order
      of the distinct public keys and all of them are awaited;
    - logger calls have no effect on any value and are left out. *)

From Stdlib Require Import List String Ascii Bool ZArith Lia Floats.
From stdpp Require Import base gmap strings list.
Import ListNotations.

Local Open Scope string_scope.
Local Open Scope list_scope.

(** The decimal literals of the source are read as the nearest binary64
    number, as JavaScript reads them. *)
Set Warnings "-inexact-float".

(** ** JavaScript numbers *)

(** [x > y]: false as soon as one side is [NaN]. *)
Definition js_gt (x y : float) : bool := (y <? x)%float.

(** The number that is the length of an array. *)
Definition length_number (n : nat) : float :=
  PrimFloat.of_uint63 (Uint63.of_Z (Z.of_nat n)).

(** ** Data model *)

(** A thrown value. [sanitizeError] takes any thrown value to an [Error];
    only the message of a thrown value is ever read, so thrown values are
    errors with a message. *)
Record Error : Type := { message : string }.

(** The annotation [{ type, message }] kept in [errorMap]. *)
Module ErrorInfo.
Record t : Type := { type : string; message : string }.
End ErrorInfo.

(** Modelled from the spec: the declaration of the type [Channel]
    (types/channel) is not among the sources.  Section 3 of the specification
    gives the raw entry as [remote_pubkey], [capacity], [local_balance],
    [remote_balance] and [active], and the enriched entry as a channel plus
    [remote_alias] and an optional error annotation.  The three amounts are
    JavaScript numbers: the handler adds, divides and compares them as
    such. *)
Record Channel : Type := {
  remote_pubkey : string;
  capacity : float;
  local_balance : float;
  remote_balance : float;
  active : bool
}.

Module Enriched.
Record t : Type := {
  remote_pubkey : string;
  capacity : float;
  local_balance : float;
  remote_balance : float;
  active : bool;
  remote_alias : string;
  _error : option ErrorInfo.t
}.
End Enriched.
Abbreviation EnrichedChannel := Enriched.t.

(** The object literal [{ ...channel, remote_alias, _error }]: every own
    property of [channel] is copied, then the listed ones are set. *)
Definition spread (channel : Channel) (alias : string) (err : option ErrorInfo.t)
  : EnrichedChannel :=
  {| Enriched.remote_pubkey := remote_pubkey channel;
     Enriched.capacity := capacity channel;
     Enriched.local_balance := local_balance channel;
     Enriched.remote_balance := remote_balance channel;
     Enriched.active := active channel;
     Enriched.remote_alias := alias;
     Enriched._error := err |}.

(** The properties of an enriched channel that come from the raw channel. *)
Definition channel_of (e : EnrichedChannel) : Channel :=
  {| remote_pubkey := Enriched.remote_pubkey e;
     capacity := Enriched.capacity e;
     local_balance := Enriched.local_balance e;
     remote_balance := Enriched.remote_balance e;
     active := Enriched.active e |}.

Record HealthCriteria : Type := {
  minLocalRatio : float;
  maxLocalRatio : float
}.

Record ChannelSummary : Type := {
  totalCapacity : float;
  totalLocalBalance : float;
  totalRemoteBalance : float;
  activeChannels : nat;
  inactiveChannels : nat;
  averageCapacity : float;
  mostImbalancedChannel : option EnrichedChannel;
  healthyChannels : nat;
  unhealthyChannels : nat
}.

Record ChannelQueryResult : Type := {
  channels : list EnrichedChannel;
  summary : ChannelSummary
}.

(** The constructor's default: 10% minimum and 90% maximum local balance. *)
Definition defaultHealthCriteria : HealthCriteria :=
  {| minLocalRatio := 0.1; maxLocalRatio := 0.9 |}.

(** [healthCriteria || { minLocalRatio: 0.1, maxLocalRatio: 0.9 }] *)
Definition constructor_healthCriteria (healthCriteria : option HealthCriteria)
  : HealthCriteria :=
  match healthCriteria with
  | Some criteria => criteria
  | None => defaultHealthCriteria
  end.

(** ** calculateChannelSummary *)

(** One iteration of the [forEach] that looks for the most imbalanced
    channel; the state is ([mostImbalancedChannel], [highestImbalanceRatio]). *)
Definition imbalance_step (st : option EnrichedChannel * float)
  (channel : EnrichedChannel) : option EnrichedChannel * float :=
  if js_gt (Enriched.capacity channel) 0 then
    let localRatio := (Enriched.local_balance channel / Enriched.capacity channel)%float in
    let imbalanceRatio := abs (0.5 - localRatio)%float in
    if js_gt imbalanceRatio (snd st) then (Some channel, imbalanceRatio) else st
  else st.

(** The predicate of the [filter] that counts the unhealthy channels. *)
Definition unhealthy_filter (healthCriteria : HealthCriteria)
  (channel : EnrichedChannel) : bool :=
  if negb (Enriched.active channel) then true
  else
    let localRatio := (Enriched.local_balance channel / Enriched.capacity channel)%float in
    (localRatio <? minLocalRatio healthCriteria)%float
    || js_gt localRatio (maxLocalRatio healthCriteria).

Definition calculateChannelSummary (healthCriteria : HealthCriteria)
  (channels : list EnrichedChannel) : ChannelSummary :=
  if (length channels =? 0)%nat then
    {| totalCapacity := 0;
       totalLocalBalance := 0;
       totalRemoteBalance := 0;
       activeChannels := 0;
       inactiveChannels := 0;
       averageCapacity := 0;
       mostImbalancedChannel := None;
       healthyChannels := 0;
       unhealthyChannels := 0 |}
  else
    let activeChannels := List.filter (fun c => Enriched.active c) channels in
    let inactiveChannels := List.filter (fun c => negb (Enriched.active c)) channels in
    let totalCapacity :=
      fold_left (fun sum channel => (sum + Enriched.capacity channel)%float) channels 0%float in
    let totalLocalBalance :=
      fold_left (fun sum channel => (sum + Enriched.local_balance channel)%float)
        channels 0%float in
    let totalRemoteBalance :=
      fold_left (fun sum channel => (sum + Enriched.remote_balance channel)%float)
        channels 0%float in
    let '(mostImbalancedChannel, _) :=
      fold_left imbalance_step channels (None, 0%float) in
    let unhealthyChannels :=
      length (List.filter (unhealthy_filter healthCriteria) channels) in
    {| totalCapacity := totalCapacity;
       totalLocalBalance := totalLocalBalance;
       totalRemoteBalance := totalRemoteBalance;
       activeChannels := length activeChannels;
       inactiveChannels := length inactiveChannels;
       averageCapacity := (totalCapacity / length_number (length channels))%float;
       mostImbalancedChannel := mostImbalancedChannel;
       healthyChannels := length channels - unhealthyChannels;
       unhealthyChannels := unhealthyChannels |}.

(** ** Effects: completions and the log of collaborator calls *)

Inductive Completion (A : Type) : Type :=
| Normal (a : A)
| Throw (e : Error).
Arguments Normal {A} a.
Arguments Throw {A} e.

(** The calls this module makes to its collaborators. *)
Inductive Call : Type :=
| GetLnd
| GetChannels
| GetNodeInfo (public_key : string)
| FormatChannelList
| FormatChannelHealth
| FormatChannelLiquidity.

(** A computation ends with a completion and has issued a list of calls. *)
Definition M (A : Type) : Type := Completion A * list Call.

Definition ret {A : Type} (a : A) : M A := (Normal a, []).

Definition bind {A B : Type} (m : M A) (f : A -> M B) : M B :=
  match m with
  | (Normal a, issued) => let '(r, later) := f a in (r, issued ++ later)
  | (Throw e, issued) => (Throw e, issued)
  end.

(** [throw e] *)
Definition throw {A : Type} (e : Error) : M A := (Throw e, []).

(** [try { m } catch (error) { handler error }] *)
Definition try_catch {A : Type} (m : M A) (handler : Error -> M A) : M A :=
  match m with
  | (Normal a, issued) => (Normal a, issued)
  | (Throw e, issued) => let '(r, later) := handler e in (r, issued ++ later)
  end.

(** Calling a collaborator: the call is issued, its completion is the
    collaborator's. *)
Definition call {A : Type} (c : Call) (completion : Completion A) : M A :=
  (completion, [c]).

Declare Scope handler_scope.
Delimit Scope handler_scope with handler.
Notation "x <- m ;; k" := (bind m (fun x => k))
  (at level 100, m at next level, right associativity) : handler_scope.

Definition completion {A : Type} (m : M A) : Completion A := fst m.
Definition calls {A : Type} (m : M A) : list Call := snd m.

(** The public keys of the node-info lookups among a list of calls. *)
Definition node_info_lookups (issued : list Call) : list string :=
  flat_map (fun c => match c with GetNodeInfo pk => [pk] | _ => [] end) issued.

Definition is_formatter_call (c : Call) : bool :=
  match c with
  | FormatChannelList | FormatChannelHealth | FormatChannelLiquidity => true
  | _ => false
  end.

(** ** The insertion-ordered [Map<string, string>] used for [pubkeyMap] *)

Module JsMap.

Definition t : Type := list (string * string).

Definition has (m : t) (key : string) : bool :=
  existsb (fun kv => String.eqb (fst kv) key) m.

Definition get (m : t) (key : string) : option string :=
  match List.find (fun kv => String.eqb (fst kv) key) m with
  | Some kv => Some (snd kv)
  | None => None
  end.

(** [set] overwrites the value of a key that is present and leaves its
    position; a new key goes to the end. *)
Fixpoint set (m : t) (key value : string) : t :=
  match m with
  | [] => [(key, value)]
  | kv :: rest =>
      if String.eqb (fst kv) key then (key, value) :: rest
      else kv :: set rest key value
  end.

Definition keys (m : t) : list string := List.map fst m.

End JsMap.

(** ** Values received from ln-service *)

(** The [channels] property of the [getChannels] response as the guard of
    [fetchRawChannelData] sees it: absent or falsy, a value that is not an
    array, or an array. *)
Inductive ChannelsProperty : Type :=
| NoData
| NotAnArray
| ChannelArray (channels : list Channel).

(** The node info: [None] for a nullish response; the alias may be absent. *)
Record NodeInfo : Type := { alias : option string }.

(** [value || fallback] on an optional string: [undefined] and the empty
    string are falsy. *)
Definition or_else (value : option string) (fallback : string) : string :=
  match value with
  | Some s => if String.eqb s "" then fallback else s
  | None => fallback
  end.

(** [nodeInfo?.alias] *)
Definition optional_alias (nodeInfo : option NodeInfo) : option string :=
  match nodeInfo with
  | Some info => alias info
  | None => None
  end.

Module Intent.
Record t : Type := { type : string; query : string }.
End Intent.

Inductive QueryData : Type :=
| EmptyObject
| ChannelData (data : ChannelQueryResult).

Module QueryResult.
Record t : Type := {
  response : string;
  data : QueryData;
  type : option string;
  text : option string;
  error : option Error
}.
End QueryResult.

(** The entry [{ pubkey, alias }] a node-info promise resolves to. *)
Record AliasEntry : Type := { pubkey : string; entry_alias : string }.

(** A promise settles: it resolves with a value or rejects with a reason. *)
Inductive Settled (A : Type) : Type :=
| Resolved (value : A)
| Rejected (reason : Error).
Arguments Resolved {A} value.
Arguments Rejected {A} reason.

Definition guidance : string :=
  "I didn't understand that query. Try asking about your channel list, health, or liquidity.".

(** The result of the [default] branch of the [switch]. *)
Definition unknown_result : QueryResult.t :=
  {| QueryResult.type := Some "unknown";
     QueryResult.text := Some guidance;
     QueryResult.response := guidance;
     QueryResult.data := EmptyObject;
     QueryResult.error := None |}.

(** The result built in the [catch] of [handleQuery]. *)
Definition error_result (error : Error) : QueryResult.t :=
  {| QueryResult.type := Some "error";
     QueryResult.text := Some ("Error processing your query: " ++ message error)%string;
     QueryResult.response := ("Error processing your query: " ++ message error)%string;
     QueryResult.error := Some error;
     QueryResult.data := EmptyObject |}.

(** The annotation recorded for a failed alias retrieval. *)
Definition alias_retrieval_failed (sanitizedError : Error) : ErrorInfo.t :=
  {| ErrorInfo.type := "alias_retrieval_failed";
     ErrorInfo.message := message sanitizedError |}.

(** ** Specification-level notions for the summary *)

(** The IEEE 754 order on numbers, as relations on the values the floats
    denote: a [NaN] is related to nothing, and the two zeros are equal. *)
Definition number_lt (x y : float) : Prop :=
  SFcompare (Prim2SF x) (Prim2SF y) = Some Lt.

Definition number_le (x y : float) : Prop :=
  SFcompare (Prim2SF x) (Prim2SF y) = Some Lt
  \/ SFcompare (Prim2SF x) (Prim2SF y) = Some Eq.

(** The local ratio [local_balance / capacity] of a channel. *)
Definition local_ratio (c : EnrichedChannel) : float :=
  (Enriched.local_balance c / Enriched.capacity c)%float.

(** The imbalance ratio [abs(0.5 - local_balance / capacity)]. *)
Definition imbalance_ratio (c : EnrichedChannel) : float :=
  abs (0.5 - local_ratio c)%float.

(** A channel is unhealthy when it is inactive or its local ratio is
    strictly below the minimum or strictly above the maximum. *)
Definition Unhealthy (criteria : HealthCriteria) (c : EnrichedChannel) : Prop :=
  Enriched.active c = false
  \/ number_lt (local_ratio c) (minLocalRatio criteria)
  \/ number_lt (maxLocalRatio criteria) (local_ratio c).

#[global] Instance number_lt_dec (x y : float) : Decision (number_lt x y).
Proof.
  unfold number_lt.
  destruct (SFcompare (Prim2SF x) (Prim2SF y)) as [[| |]|];
    first [left; reflexivity | right; discriminate].
Defined.

#[global] Instance Unhealthy_dec (criteria : HealthCriteria) (c : EnrichedChannel)
  : Decision (Unhealthy criteria c).
Proof. unfold Unhealthy. apply _. Defined.

(** What the search for the most imbalanced channel has established after a
    prefix [seen] of the channels: the state holds the first channel of
    positive capacity whose imbalance ratio is positive and is exceeded by
    none. *)
Definition imbalance_inv (seen : list EnrichedChannel)
  (st : option EnrichedChannel * float) : Prop :=
  match fst st with
  | None =>
      snd st = 0%float
      /\ forall c, c ∈ seen -> number_lt 0 (Enriched.capacity c) ->
           ~ number_lt 0 (imbalance_ratio c)
  | Some m =>
      snd st = imbalance_ratio m
      /\ exists i : nat,
          seen !! i = Some m
          /\ number_lt 0 (Enriched.capacity m)
          /\ number_lt 0 (imbalance_ratio m)
          /\ (forall c, c ∈ seen -> number_lt 0 (Enriched.capacity c) ->
                ~ number_lt (imbalance_ratio m) (imbalance_ratio c))
          /\ (forall (j : nat) c, (j < i)%nat -> seen !! j = Some c ->
                number_lt 0 (Enriched.capacity c) ->
                ~ number_le (imbalance_ratio m) (imbalance_ratio c))
  end.

(** The summary of an empty channel set. *)
Definition empty_summary : ChannelSummary :=
  {| totalCapacity := 0;
     totalLocalBalance := 0;
     totalRemoteBalance := 0;
     activeChannels := 0;
     inactiveChannels := 0;
     averageCapacity := 0;
     mostImbalancedChannel := None;
     healthyChannels := 0;
     unhealthyChannels := 0 |}.

(** ** The handler *)

(** *** Fetching and alias resolution: the methods that call [getLnd()] once *)

Section ChannelAccess.

(** The authenticated handle [lndClient.getLnd()] returns. *)
Context {Lnd : Type}.

(** The outcome of the call [this.lndClient.getLnd()] the method makes. *)
Variable getLnd : Completion Lnd.
(** [lnService.getChannels({ lnd })], reduced to the property that is read. *)
Variable getChannels : Lnd -> Completion ChannelsProperty.
(** [lnService.getNodeInfo({ lnd, public_key })] *)
Variable getNodeInfo : Lnd -> string -> Completion (option NodeInfo).
(** [sanitizeError] of utils/sanitize. *)
Variable sanitizeError : Error -> Error.

Local Open Scope handler_scope.

Definition fetchRawChannelData : M (list Channel) :=
  lnd <- call GetLnd getLnd ;;
  channels <- call GetChannels (getChannels lnd) ;;
  match channels with
  | NoData => ret []
  | NotAnArray => ret []
  | ChannelArray channels => ret channels
  end.

(** The [forEach] that fills [pubkeyMap] with the distinct public keys. *)
Definition collect_pubkeys (channels : list Channel) : JsMap.t :=
  fold_left
    (fun pubkeyMap channel =>
       if negb (JsMap.has pubkeyMap (remote_pubkey channel))
       then JsMap.set pubkeyMap (remote_pubkey channel) ""
       else pubkeyMap)
    channels [].

(** The body of one node-info promise; [errorMap] is the map the [catch]
    branch writes to. *)
Definition nodeInfoPromise (lnd : Lnd) (errorMap : gmap string ErrorInfo.t)
  (pubkey : string) : M (AliasEntry * gmap string ErrorInfo.t) :=
  try_catch
    (nodeInfo <- call (GetNodeInfo pubkey) (getNodeInfo lnd pubkey) ;;
     ret ({| pubkey := pubkey;
             entry_alias := or_else (optional_alias nodeInfo) "Unknown" |},
          errorMap))
    (fun error =>
       let sanitizedError := sanitizeError error in
       ret ({| pubkey := pubkey; entry_alias := "Unknown (Error retrieving)" |},
            <[ pubkey := alias_retrieval_failed sanitizedError ]> errorMap)).

(** [Promise.all(pubkeys.map(...))]: the lookups are issued in the order of
    [pubkeys] and all of them are awaited. *)
Fixpoint nodeInfoPromises (lnd : Lnd) (errorMap : gmap string ErrorInfo.t)
  (pubkeys : list string) : M (list AliasEntry * gmap string ErrorInfo.t) :=
  match pubkeys with
  | [] => ret ([], errorMap)
  | pubkey :: rest =>
      r <- nodeInfoPromise lnd errorMap pubkey ;;
      rs <- nodeInfoPromises lnd (snd r) rest ;;
      ret (fst r :: fst rs, snd rs)
  end.

Definition addNodeAliases (channels : list Channel) : M (list EnrichedChannel) :=
  try_catch
    (lnd <- call GetLnd getLnd ;;
     let pubkeyMap := collect_pubkeys channels in
     let pubkeys := JsMap.keys pubkeyMap in
     r <- nodeInfoPromises lnd ∅ pubkeys ;;
     let nodeInfos := fst r in
     let errorMap := snd r in
     let pubkeyMap :=
       fold_left (fun m info => JsMap.set m (pubkey info) (entry_alias info))
         nodeInfos pubkeyMap in
     ret (List.map
            (fun channel =>
               match errorMap !! remote_pubkey channel with
               | Some errorInfo =>
                   spread channel
                     (or_else (JsMap.get pubkeyMap (remote_pubkey channel)) "Unknown")
                     (Some errorInfo)
               | None =>
                   spread channel
                     (or_else (JsMap.get pubkeyMap (remote_pubkey channel)) "Unknown")
                     None
               end)
            channels))
    (fun error =>
       let sanitizedError := sanitizeError error in
       ret (List.map
              (fun channel =>
                 spread channel "Unknown (Error retrieving)"
                   (Some (alias_retrieval_failed sanitizedError)))
              channels)).

Definition enrichChannelsWithMetadata (channels : list Channel)
  : M (list EnrichedChannel) :=
  if (length channels =? 0)%nat then ret []
  else addNodeAliases channels.

(** ** Specification-level notions for alias resolution *)

(** The alias a lookup yields for a peer: the resolved alias (with the
    fallback for a missing or empty one), or the failure placeholder. *)
Definition lookup_alias (lnd : Lnd) (pubkey : string) : string :=
  match getNodeInfo lnd pubkey with
  | Normal nodeInfo => or_else (optional_alias nodeInfo) "Unknown"
  | Throw _ => "Unknown (Error retrieving)"
  end.

(** The annotation a lookup yields for a peer: present exactly on failure. *)
Definition lookup_error (lnd : Lnd) (pubkey : string) : option ErrorInfo.t :=
  match getNodeInfo lnd pubkey with
  | Normal _ => None
  | Throw error => Some (alias_retrieval_failed (sanitizeError error))
  end.

(** Resolution channel by channel, with no sharing of lookups: each channel
    gets what the lookup of its own peer yields, or, when the fan-out cannot
    start, the placeholder and the shared annotation. *)
Definition resolve_spec (channel : Channel) : EnrichedChannel :=
  match getLnd with
  | Normal lnd =>
      spread channel (lookup_alias lnd (remote_pubkey channel))
        (lookup_error lnd (remote_pubkey channel))
  | Throw error =>
      spread channel "Unknown (Error retrieving)"
        (Some (alias_retrieval_failed (sanitizeError error)))
  end.

(** The entry the promise of a public key resolves to. *)
Definition lookup_entry (lnd : Lnd) (pubkey : string) : AliasEntry :=
  {| pubkey := pubkey; entry_alias := lookup_alias lnd pubkey |}.

(** The effect of one lookup on [errorMap]. *)
Definition record_error (lnd : Lnd) (errorMap : gmap string ErrorInfo.t)
  (pubkey : string) : gmap string ErrorInfo.t :=
  match lookup_error lnd pubkey with
  | Some errorInfo => <[ pubkey := errorInfo ]> errorMap
  | None => errorMap
  end.

End ChannelAccess.

(** The distinct elements of a list in the order of their first occurrence. *)
Fixpoint first_occurrences (keys : list string) : list string :=
  match keys with
  | [] => []
  | key :: rest =>
      key :: List.filter (fun k => negb (String.eqb k key)) (first_occurrences rest)
  end.

(** *** The query: the methods that call [getLnd()] twice *)

Section ChannelQueryHandler.

Context {Lnd : Type}.

(** [this.lndClient.getLnd()]: the outcome of each call, by its position
    among the calls of one query.  The fetch makes call 0; the alias
    resolution, when it is reached, makes call 1. *)
Variable getLnd : nat -> Completion Lnd.
Variable getChannels : Lnd -> Completion ChannelsProperty.
Variable getNodeInfo : Lnd -> string -> Completion (option NodeInfo).
Variable sanitizeError : Error -> Error.
(** The three views of [this.formatter], pure renderings of the data. *)
Variable formatChannelList : ChannelQueryResult -> string.
Variable formatChannelHealth : ChannelQueryResult -> string.
Variable formatChannelLiquidity : ChannelQueryResult -> string.
(** [this.healthCriteria] *)
Variable healthCriteria : HealthCriteria.

Local Open Scope handler_scope.

Definition getChannelData : M ChannelQueryResult :=
  try_catch
    (channels <- fetchRawChannelData (getLnd 0) getChannels ;;
     enrichedChannels <-
       enrichChannelsWithMetadata (getLnd 1) getNodeInfo sanitizeError channels ;;
     let summary := calculateChannelSummary healthCriteria enrichedChannels in
     ret {| channels := enrichedChannels; summary := summary |})
    (fun error =>
       let sanitizedError := sanitizeError error in
       throw sanitizedError).

(** The body of [handleQuery]: the [try] with its [catch]. *)
Definition handleQuery_body (intent : Intent.t) : M QueryResult.t :=
  try_catch
    (channelData <- getChannelData ;;
     if String.eqb (Intent.type intent) "channel_list" then
       text <- call FormatChannelList (Normal (formatChannelList channelData)) ;;
       response <- call FormatChannelList (Normal (formatChannelList channelData)) ;;
       ret {| QueryResult.type := Some "channel_list";
              QueryResult.text := Some text;
              QueryResult.response := response;
              QueryResult.data := ChannelData channelData;
              QueryResult.error := None |}
     else if String.eqb (Intent.type intent) "channel_health" then
       text <- call FormatChannelHealth (Normal (formatChannelHealth channelData)) ;;
       response <- call FormatChannelHealth (Normal (formatChannelHealth channelData)) ;;
       ret {| QueryResult.type := Some "channel_health";
              QueryResult.text := Some text;
              QueryResult.response := response;
              QueryResult.data := ChannelData channelData;
              QueryResult.error := None |}
     else if String.eqb (Intent.type intent) "channel_liquidity" then
       text <- call FormatChannelLiquidity (Normal (formatChannelLiquidity channelData)) ;;
       response <- call FormatChannelLiquidity (Normal (formatChannelLiquidity channelData)) ;;
       ret {| QueryResult.type := Some "channel_liquidity";
              QueryResult.text := Some text;
              QueryResult.response := response;
              QueryResult.data := ChannelData channelData;
              QueryResult.error := None |}
     else
       ret unknown_result)
    (fun error => ret (error_result error)).

(** The promise [handleQuery] returns, with the calls issued on the way. *)
Definition handleQuery (intent : Intent.t) : Settled QueryResult.t * list Call :=
  match handleQuery_body intent with
  | (Normal result, issued) => (Resolved result, issued)
  | (Throw error, issued) => (Rejected error, issued)
  end.

(** ** Specification-level notions for the query *)

(** The calls the enrichment of the fetched channels issues: none for an
    empty list; otherwise the second call of [getLnd()] and, when it yields
    the handle, one lookup per distinct peer. *)
Definition enrichment_calls (raw : list Channel) : list Call :=
  match raw with
  | [] => []
  | _ =>
      match getLnd 1 with
      | Normal _ =>
          GetLnd :: List.map GetNodeInfo (first_occurrences (List.map remote_pubkey raw))
      | Throw _ => [GetLnd]
      end
  end.

End ChannelQueryHandler.

(** ** Further specification-level notions *)

(** The counters and totals of a summary, without the most imbalanced
    channel. *)
Definition figures (s : ChannelSummary)
  : float * float * float * nat * nat * float * nat * nat :=
  (totalCapacity s, totalLocalBalance s, totalRemoteBalance s,
   activeChannels s, inactiveChannels s, averageCapacity s,
   healthyChannels s, unhealthyChannels s).

(** The four counters of a summary. *)
Definition counters (s : ChannelSummary) : nat * nat * nat * nat :=
  (activeChannels s, inactiveChannels s, healthyChannels s, unhealthyChannels s).

(** The channel list [fetchRawChannelData] returns for a response. *)
Definition channels_or_empty (property : ChannelsProperty) : list Channel :=
  match property with
  | ChannelArray channels => channels
  | NoData | NotAnArray => []
  end.

(** The types of result [handleQuery] can produce. *)
Definition result_types : list string :=
  ["channel_list"; "channel_health"; "channel_liquidity"; "unknown"; "error"].

(** ** The configuration module *)

(** The first module of the file: [setupMockLndIfNeeded], [validateConfig]
    and [getConfig].  [process.env] is a finite map from names to strings (a
    name that is not set reads [undefined]); the file system is a state of an
    unspecified type, read by [existsSync] and changed by [mkdirSync] and
    [writeFileSync], either of which may throw; every call that changes it is
    logged.  Strings are byte sequences (UTF-8).  Logger calls, among them
    the rendering of the sanitized configuration for the log, have no effect
    on the result and are left out; [loadEnvironment], called when the module
    is loaded, is what fills [process.env] beforehand. *)

Module Config.

(** *** [parseInt(string, 10)] *)

Definition is_digit (c : ascii) : bool :=
  (48 <=? nat_of_ascii c)%nat && (nat_of_ascii c <=? 57)%nat.

Definition digit_value (c : ascii) : Z := Z.of_nat (nat_of_ascii c) - 48.

(** The value of the longest prefix of decimal digits; [None] (that is
    [NaN]) when there is no digit. *)
Fixpoint digits (s : string) (acc : Z) (seen : bool) : option Z :=
  match s with
  | String c rest =>
      if is_digit c then digits rest (10 * acc + digit_value c) true
      else if seen then Some acc else None
  | EmptyString => if seen then Some acc else None
  end.

Definition byte_is (c : ascii) (n : nat) : bool := (nat_of_ascii c =? n)%nat.

(** Leading white space and line terminators are skipped: TAB, LF, VT, FF,
    CR, SP, and, in UTF-8, U+00A0, U+1680, U+2000..U+200A, U+2028, U+2029,
    U+202F, U+205F, U+3000 and U+FEFF. *)
Fixpoint trim_start (s : string) : string :=
  match s with
  | String c rest =>
      if ((9 <=? nat_of_ascii c)%nat && (nat_of_ascii c <=? 13)%nat) || byte_is c 32
      then trim_start rest
      else
        match rest with
        | String c2 rest2 =>
            if byte_is c 194 && byte_is c2 160 then trim_start rest2
            else
              match rest2 with
              | String c3 rest3 =>
                  if (byte_is c 225 && byte_is c2 154 && byte_is c3 128)
                     || (byte_is c 226 && byte_is c2 128
                         && (((128 <=? nat_of_ascii c3)%nat
                              && (nat_of_ascii c3 <=? 138)%nat)
                             || byte_is c3 168 || byte_is c3 169 || byte_is c3 175))
                     || (byte_is c 226 && byte_is c2 129 && byte_is c3 159)
                     || (byte_is c 227 && byte_is c2 128 && byte_is c3 128)
                     || (byte_is c 239 && byte_is c2 187 && byte_is c3 191)
                  then trim_start rest3
                  else s
              | EmptyString => s
              end
        | EmptyString => s
        end
  | EmptyString => s
  end.

(** [parseInt(s, 10)]: an optional sign, then decimal digits; what follows
    the digits is ignored.  [None] is [NaN]. *)
Definition parseInt (s : string) : option Z :=
  match trim_start s with
  | String c rest =>
      if byte_is c 45 then option_map Z.opp (digits rest 0 false)
      else if byte_is c 43 then digits rest 0 false
      else digits (String c rest) 0 false
  | EmptyString => None
  end.

(** [isNaN(port) || port <= 0 || port > 65535] *)
Definition invalid_port (port : option Z) : bool :=
  match port with
  | None => true
  | Some n => (n <=? 0)%Z || (65535 <? n)%Z
  end.

(** *** The configuration *)

Module Lnd.
Record t : Type := {
  tlsCertPath : option string;
  macaroonPath : option string;
  host : string;
  port : string
}.
End Lnd.

Module Lnc.
Record t : Type := {
  connectionString : option string;
  pairingPhrase : option string
}.
End Lnc.

Module Node.
Record t : Type := {
  connectionType : string;
  lnd : Lnd.t;
  lnc : option Lnc.t
}.
End Node.

Module Server.
Record t : Type := {
  port : option Z;
  logLevel : string;
  environment : string
}.
End Server.

Record Config : Type := { node : Node.t; server : Server.t }.

(** *** The process: environment, file system, log of the changes *)

Inductive FsCall : Type :=
| Mkdir (path : string)
| WriteFile (path content : string).

Record Process (FS : Type) : Type := {
  env : gmap string string;
  fs : FS;
  fs_log : list FsCall
}.
Arguments env {FS} _.
Arguments fs {FS} _.
Arguments fs_log {FS} _.

(** [value] is truthy: set and not the empty string. *)
Definition truthy (value : option string) : bool :=
  match value with
  | Some s => negb (String.eqb s "")
  | None => false
  end.

(** [value === expected] *)
Definition equals (value : option string) (expected : string) : bool :=
  match value with
  | Some s => String.eqb s expected
  | None => false
  end.

(** The interpolation of a variable in a template literal. *)
Definition interpolate (value : option string) : string :=
  match value with
  | Some s => s
  | None => "undefined"
  end.

Section Model.

Context {FS : Type}.

(** [fs.existsSync], [fs.mkdirSync(path, { recursive: true })] and
    [fs.writeFileSync(path, content)]. *)
Variable existsSync : FS -> string -> bool.
Variable mkdirSync : FS -> string -> Completion unit * FS.
Variable writeFileSync : FS -> string -> string -> Completion unit * FS.
(** [process.cwd()] and [path.resolve]. *)
Variable cwd : string.
Variable path_resolve : string -> string -> string.
(** [sanitizeErrorMessage] of errors/sanitize. *)
Variable sanitizeErrorMessage : string -> string.

(** A computation on the process that may throw. *)
Definition CfgM (A : Type) : Type := Process FS -> Completion A * Process FS.

Definition cret {A : Type} (a : A) : CfgM A := fun p => (Normal a, p).

Definition cthrow {A : Type} (msg : string) : CfgM A :=
  fun p => (Throw {| message := msg |}, p).

Definition cbind {A B : Type} (m : CfgM A) (f : A -> CfgM B) : CfgM B :=
  fun p =>
    match m p with
    | (Normal a, p') => f a p'
    | (Throw e, p') => (Throw e, p')
    end.

Definition ctry {A : Type} (m : CfgM A) (handler : Error -> CfgM A) : CfgM A :=
  fun p =>
    match m p with
    | (Normal a, p') => (Normal a, p')
    | (Throw e, p') => handler e p'
    end.

(** [if (condition) { body }] *)
Definition when (condition : bool) (body : CfgM unit) : CfgM unit :=
  if condition then body else cret tt.

Definition getenv (name : string) : CfgM (option string) :=
  fun p => (Normal (env p !! name), p).

Definition setenv (name value : string) : CfgM unit :=
  fun p => (Normal tt,
            {| env := <[ name := value ]> (env p); fs := fs p; fs_log := fs_log p |}).

Definition exists_ (path : string) : CfgM bool :=
  fun p => (Normal (existsSync (fs p) path), p).

Definition mkdir (path : string) : CfgM unit :=
  fun p =>
    let '(r, fs') := mkdirSync (fs p) path in
    (r, {| env := env p; fs := fs'; fs_log := fs_log p ++ [Mkdir path] |}).

Definition writeFile (path content : string) : CfgM unit :=
  fun p =>
    let '(r, fs') := writeFileSync (fs p) path content in
    (r, {| env := env p; fs := fs'; fs_log := fs_log p ++ [WriteFile path content] |}).

Local Notation "x <- m ;; k" := (cbind m (fun x => k))
  (at level 100, m at next level, right associativity).
Local Notation "m ;;; k" := (cbind m (fun _ => k))
  (at level 100, right associativity).

Definition mockDir : string := path_resolve cwd "mock".
Definition mockCertPath : string := path_resolve mockDir "mock-cert.pem".
Definition mockMacaroonPath : string := path_resolve mockDir "mock-macaroon".

Definition setupMockLndIfNeeded : CfgM unit :=
  useMock <- getenv "USE_MOCK_LND" ;;
  when (equals useMock "true")
    (dirExists <- exists_ mockDir ;;
     when (negb dirExists) (mkdir mockDir) ;;;
     certExists <- exists_ mockCertPath ;;
     when (negb certExists) (writeFile mockCertPath "MOCK TLS CERTIFICATE") ;;;
     macaroonExists <- exists_ mockMacaroonPath ;;
     when (negb macaroonExists) (writeFile mockMacaroonPath "MOCK MACAROON") ;;;
     setenv "LND_TLS_CERT_PATH" mockCertPath ;;;
     setenv "LND_MACAROON_PATH" mockMacaroonPath).

Definition validateConfig : CfgM unit :=
  useMock <- getenv "USE_MOCK_LND" ;;
  connectionType <- getenv "CONNECTION_TYPE" ;;
  when (negb (equals useMock "true") && equals connectionType "lnd-direct")
    (tlsCertPath <- getenv "LND_TLS_CERT_PATH" ;;
     macaroonPath <- getenv "LND_MACAROON_PATH" ;;
     when (negb (truthy tlsCertPath) || negb (truthy macaroonPath))
       (cthrow "Missing required LND configuration (tlsCertPath or macaroonPath)") ;;;
     certExists <- exists_ (interpolate tlsCertPath) ;;
     when (negb certExists)
       (cthrow ("TLS certificate file not found at: " ++ interpolate tlsCertPath)%string) ;;;
     macaroonExists <- exists_ (interpolate macaroonPath) ;;
     when (negb macaroonExists)
       (cthrow ("Macaroon file not found at: " ++ interpolate macaroonPath)%string)) ;;;
  when (equals connectionType "lnc")
    (connectionString <- getenv "LNC_CONNECTION_STRING" ;;
     when (negb (truthy connectionString))
       (cthrow "Missing required LNC configuration (connectionString)")) ;;;
  serverPort <- getenv "PORT" ;;
  when (invalid_port (parseInt (or_else serverPort "")))
    (cthrow ("Invalid server port: " ++ interpolate serverPort)%string) ;;;
  lndPort <- getenv "LND_PORT" ;;
  when (truthy lndPort)
    (when (invalid_port (parseInt (interpolate lndPort)))
       (cthrow ("Invalid LND port: " ++ interpolate lndPort)%string)).

(** The body of the [try] of [getConfig] after the validation. *)
Definition buildConfig : CfgM Config :=
  connectionTypeVar <- getenv "CONNECTION_TYPE" ;;
  useMock <- getenv "USE_MOCK_LND" ;;
  let connectionType :=
    or_else connectionTypeVar (if equals useMock "true" then "mock" else "lnd-direct") in
  tlsCertPath <- getenv "LND_TLS_CERT_PATH" ;;
  macaroonPath <- getenv "LND_MACAROON_PATH" ;;
  lndHost <- getenv "LND_HOST" ;;
  lndPort <- getenv "LND_PORT" ;;
  serverPort <- getenv "PORT" ;;
  logLevel <- getenv "LOG_LEVEL" ;;
  nodeEnv <- getenv "NODE_ENV" ;;
  connectionString <- getenv "LNC_CONNECTION_STRING" ;;
  pairingPhrase <- getenv "LNC_PAIRING_PHRASE" ;;
  cret
    {| node :=
         {| Node.connectionType := connectionType;
            Node.lnd :=
              {| Lnd.tlsCertPath := tlsCertPath;
                 Lnd.macaroonPath := macaroonPath;
                 Lnd.host := or_else lndHost "localhost";
                 Lnd.port := or_else lndPort "10009" |};
            Node.lnc :=
              if String.eqb connectionType "lnc"
              then Some {| Lnc.connectionString := connectionString;
                           Lnc.pairingPhrase := pairingPhrase |}
              else None |};
       server :=
         {| Server.port := parseInt (or_else serverPort "3000");
            Server.logLevel := or_else logLevel "info";
            Server.environment := or_else nodeEnv "development" |} |}.

Definition getConfig : CfgM Config :=
  ctry
    (setupMockLndIfNeeded ;;;
     validateConfig ;;;
     buildConfig)
    (fun error =>
       let errorMessage := message error in
       let sanitizedMessage := sanitizeErrorMessage errorMessage in
       cthrow sanitizedMessage).

End Model.

(** *** The checks of [validateConfig], one by one *)

Section Checks.

Context {FS : Type}.
Variable existsSync : FS -> string -> bool.

(** The message of the check of the LND files, if it fails. *)
Definition lnd_files_error (p : Process FS) : option string :=
  if negb (equals (env p !! "USE_MOCK_LND") "true")
     && equals (env p !! "CONNECTION_TYPE") "lnd-direct"
  then
    if negb (truthy (env p !! "LND_TLS_CERT_PATH"))
       || negb (truthy (env p !! "LND_MACAROON_PATH"))
    then Some "Missing required LND configuration (tlsCertPath or macaroonPath)"
    else if negb (existsSync (fs p) (interpolate (env p !! "LND_TLS_CERT_PATH")))
    then Some ("TLS certificate file not found at: "
               ++ interpolate (env p !! "LND_TLS_CERT_PATH"))%string
    else if negb (existsSync (fs p) (interpolate (env p !! "LND_MACAROON_PATH")))
    then Some ("Macaroon file not found at: "
               ++ interpolate (env p !! "LND_MACAROON_PATH"))%string
    else None
  else None.

Definition lnc_error (p : Process FS) : option string :=
  if equals (env p !! "CONNECTION_TYPE") "lnc"
     && negb (truthy (env p !! "LNC_CONNECTION_STRING"))
  then Some "Missing required LNC configuration (connectionString)"
  else None.

Definition port_error (p : Process FS) : option string :=
  if invalid_port (parseInt (or_else (env p !! "PORT") ""))
  then Some ("Invalid server port: " ++ interpolate (env p !! "PORT"))%string
  else None.

Definition lnd_port_error (p : Process FS) : option string :=
  if truthy (env p !! "LND_PORT")
     && invalid_port (parseInt (interpolate (env p !! "LND_PORT")))
  then Some ("Invalid LND port: " ++ interpolate (env p !! "LND_PORT"))%string
  else None.

(** The message of the first check that fails. *)
Definition validation_error (p : Process FS) : option string :=
  match lnd_files_error p with
  | Some msg => Some msg
  | None =>
      match lnc_error p with
      | Some msg => Some msg
      | None =>
          match port_error p with
          | Some msg => Some msg
          | None => lnd_port_error p
          end
      end
  end.

(** The configuration object built from the environment. *)
Definition config_of (variables : gmap string string) : Config :=
  let connectionType :=
    or_else (variables !! "CONNECTION_TYPE")
      (if equals (variables !! "USE_MOCK_LND") "true" then "mock" else "lnd-direct") in
  {| node :=
       {| Node.connectionType := connectionType;
          Node.lnd :=
            {| Lnd.tlsCertPath := variables !! "LND_TLS_CERT_PATH";
               Lnd.macaroonPath := variables !! "LND_MACAROON_PATH";
               Lnd.host := or_else (variables !! "LND_HOST") "localhost";
               Lnd.port := or_else (variables !! "LND_PORT") "10009" |};
          Node.lnc :=
            if String.eqb connectionType "lnc"
            then Some {| Lnc.connectionString := variables !! "LNC_CONNECTION_STRING";
                         Lnc.pairingPhrase := variables !! "LNC_PAIRING_PHRASE" |}
            else None |};
     server :=
       {| Server.port := parseInt (or_else (variables !! "PORT") "3000");
          Server.logLevel := or_else (variables !! "LOG_LEVEL") "info";
          Server.environment := or_else (variables !! "NODE_ENV") "development" |} |}.

End Checks.

End Config.

(** ** Sample inputs *)

Module Sample.

(** A connected client, and one whose handle cannot be obtained. *)
Definition connected : Completion unit := Normal tt.
Definition disconnected : Completion unit :=
  Throw {| message := "LND connection not initialized" |}.

Definition sanitize (error : Error) : Error :=
  {| message := ("sanitized: " ++ message error)%string |}.

(** Peer 02aa advertises an alias, the lookup of 03bb fails, 03cc advertises
    an empty alias and any other peer has no node info. *)
Definition nodeInfo (lnd : unit) (public_key : string) : Completion (option NodeInfo) :=
  if String.eqb public_key "02aa" then Normal (Some {| alias := Some "alice" |})
  else if String.eqb public_key "03bb" then Throw {| message := "node not found" |}
  else if String.eqb public_key "03cc" then Normal (Some {| alias := Some "" |})
  else Normal None.

Definition balanced : Channel :=
  {| remote_pubkey := "02aa"; capacity := 1000; local_balance := 500;
     remote_balance := 500; active := true |}.

Definition depleted : Channel :=
  {| remote_pubkey := "03bb"; capacity := 1000; local_balance := 50;
     remote_balance := 950; active := true |}.

Definition saturated : Channel :=
  {| remote_pubkey := "03cc"; capacity := 2000; local_balance := 1900;
     remote_balance := 100; active := false |}.

Definition second_to_alice : Channel :=
  {| remote_pubkey := "02aa"; capacity := 0; local_balance := 0;
     remote_balance := 0; active := true |}.

Definition portfolio : list Channel :=
  [balanced; depleted; second_to_alice; saturated].

Definition enriched_portfolio : list EnrichedChannel :=
  [spread balanced "alice" None;
   spread depleted "Unknown (Error retrieving)"
     (Some (alias_retrieval_failed (sanitize {| message := "node not found" |})));
   spread second_to_alice "alice" None;
   spread saturated "Unknown" None].

(** Two channels whose exact ratios 0.95 and 0.05 are equally far from one
    half, but whose computed imbalance ratios differ in the last place. *)
Definition near_tie : list EnrichedChannel :=
  [spread saturated "Unknown" None; spread depleted "bob" None].

(** A channel whose amounts are 2^53, next to which an amount of 1 is lost
    in a sum, and a channel with such amounts. *)
Definition huge : Channel :=
  {| remote_pubkey := "02aa"; capacity := 9007199254740992;
     local_balance := 9007199254740992; remote_balance := 0; active := true |}.

Definition tiny : Channel :=
  {| remote_pubkey := "03bb"; capacity := 1; local_balance := 0;
     remote_balance := 1; active := false |}.

(** A client that answers every call of [getLnd()] alike, and one that hands
    out the handle once and fails from then on. *)
Definition always (outcome : Completion unit) (nth_call : nat) : Completion unit :=
  outcome.
Definition flaky (nth_call : nat) : Completion unit :=
  match nth_call with
  | O => connected
  | S _ => disconnected
  end.

Definition listView (data : ChannelQueryResult) : string := "list".
Definition healthView (data : ChannelQueryResult) : string := "health".
Definition liquidityView (data : ChannelQueryResult) : string := "liquidity".

Definition bogus : Intent.t := {| Intent.type := "bogus"; Intent.query := "what?" |}.

End Sample.

(** ** Sample processes *)

Module ConfigSample.

(** A file system that is the list of the paths that exist, and whose
    operations never fail. *)
Definition existsSync (fs : list string) (path : string) : bool :=
  existsb (String.eqb path) fs.
Definition mkdirSync (fs : list string) (path : string) : Completion unit * list string :=
  (Normal tt, path :: fs).
Definition writeFileSync (fs : list string) (path content : string)
  : Completion unit * list string :=
  (Normal tt, path :: fs).

Definition cwd : string := "/srv/app".
Definition path_resolve (base name : string) : string := (base ++ "/" ++ name)%string.
Definition sanitize (msg : string) : string := msg.

Definition getConfig (p : Config.Process (list string)) :=
  Config.getConfig existsSync mkdirSync writeFileSync cwd path_resolve sanitize p.

(** A direct connection with its two files in place. *)
Definition direct : Config.Process (list string) :=
  {| Config.env :=
       list_to_map
         [("CONNECTION_TYPE", "lnd-direct");
          ("LND_TLS_CERT_PATH", "/etc/lnd/tls.cert");
          ("LND_MACAROON_PATH", "/etc/lnd/readonly.macaroon");
          ("LND_PORT", "10009");
          ("PORT", "3000")];
     Config.fs := ["/etc/lnd/tls.cert"; "/etc/lnd/readonly.macaroon"];
     Config.fs_log := [] |}.

(** A Lightning Node Connect set-up. *)
Definition remote : Config.Process (list string) :=
  {| Config.env :=
       list_to_map
         [("CONNECTION_TYPE", "lnc");
          ("LNC_CONNECTION_STRING", "pairing-data");
          ("PORT", "8080")];
     Config.fs := [];
     Config.fs_log := [] |}.

(** Mock mode on an empty file system, and once the mock files exist. *)
Definition mock : Config.Process (list string) :=
  {| Config.env := list_to_map [("USE_MOCK_LND", "true"); ("PORT", "3000")];
     Config.fs := [];
     Config.fs_log := [] |}.

Definition mock_again : Config.Process (list string) :=
  {| Config.env := list_to_map [("USE_MOCK_LND", "true"); ("PORT", "3000")];
     Config.fs := ["/srv/app/mock/mock-macaroon"; "/srv/app/mock/mock-cert.pem";
                   "/srv/app/mock"];
     Config.fs_log := [] |}.

(** Only the port is set. *)
Definition port_only : Config.Process (list string) :=
  {| Config.env := list_to_map [("PORT", "3000")];
     Config.fs := [];
     Config.fs_log := [] |}.

(** Nothing is set. *)
Definition bare : Config.Process (list string) :=
  {| Config.env := ∅; Config.fs := []; Config.fs_log := [] |}.

End ConfigSample.

(** ** Numbers *)

(** Case analysis on the comparisons of integers inside [SFcompare]. *)
Ltac order_cases :=
  repeat match goal with
         | |- context [Z.compare ?a ?b] => destruct (Z.compare_spec a b)
         | H : context [Z.compare ?a ?b] |- _ => destruct (Z.compare_spec a b)
         | |- context [Pos.compare ?a ?b] => destruct (Pos.compare_spec a b)
         | H : context [Pos.compare ?a ?b] |- _ => destruct (Pos.compare_spec a b)
         end.

Lemma SFcompare_lt_irrefl (x : spec_float) : SFcompare x x <> Some Lt.
Proof.
  unfold SFcompare. destruct x as [s|s| |s m e]; try destruct s; try discriminate;
    rewrite Z.compare_refl;
    change (Pos.compare_cont Eq m m) with (Pos.compare m m);
    rewrite Pos.compare_refl; discriminate.
Qed.

Lemma SFcompare_lt_trans (x y z : spec_float) :
  SFcompare x y = Some Lt -> SFcompare y z = Some Lt -> SFcompare x z = Some Lt.
Proof.
  unfold SFcompare.
  destruct x as [sx|sx| |sx mx ex], y as [sy|sy| |sy my ey], z as [sz|sz| |sz mz ez];
    try destruct sx; try destruct sy; try destruct sz;
    try discriminate; try reflexivity;
    change (Pos.compare_cont Eq) with Pos.compare; cbn [CompOpp];
    intros H1 H2; order_cases; cbn [CompOpp] in *;
    try discriminate; try reflexivity; try lia.
Qed.

Lemma SFcompare_lt_eq_trans (x y z : spec_float) :
  SFcompare x y = Some Lt -> SFcompare y z = Some Eq -> SFcompare x z = Some Lt.
Proof.
  unfold SFcompare.
  destruct x as [sx|sx| |sx mx ex], y as [sy|sy| |sy my ey], z as [sz|sz| |sz mz ez];
    try destruct sx; try destruct sy; try destruct sz;
    try discriminate; try reflexivity;
    change (Pos.compare_cont Eq) with Pos.compare; cbn [CompOpp];
    intros H1 H2; order_cases; cbn [CompOpp] in *;
    try discriminate; try reflexivity; try lia.
Qed.

Lemma ltb_number_lt (x y : float) : (x <? y)%float = true <-> number_lt x y.
Proof.
  rewrite ltb_spec. unfold SFltb, number_lt.
  destruct (SFcompare (Prim2SF x) (Prim2SF y)) as [[| |]|];
    split; intros H; first [reflexivity | discriminate].
Qed.

Lemma js_gt_number_lt (x y : float) : js_gt x y = true <-> number_lt y x.
Proof. apply ltb_number_lt. Qed.

Lemma number_lt_irrefl (x : float) : ~ number_lt x x.
Proof. apply SFcompare_lt_irrefl. Qed.

Lemma number_lt_trans (x y z : float) :
  number_lt x y -> number_lt y z -> number_lt x z.
Proof. apply SFcompare_lt_trans. Qed.

Lemma number_lt_le_trans (x y z : float) :
  number_lt x y -> number_le y z -> number_lt x z.
Proof.
  intros Hxy [Hyz|Hyz].
  - exact (SFcompare_lt_trans _ _ _ Hxy Hyz).
  - exact (SFcompare_lt_eq_trans _ _ _ Hxy Hyz).
Qed.

(** Below [y] but not below [z]: then [z] is not at most [y]. *)
Lemma number_lt_not_lt (x y z : float) :
  number_lt x z -> ~ number_lt x y -> ~ number_le z y.
Proof. intros Hxz Hxy Hzy. apply Hxy. exact (number_lt_le_trans _ _ _ Hxz Hzy). Qed.

(** ** Lists *)

Lemma filter_bool_decide {A : Type} (f : A -> bool) (P : A -> Prop)
  `{!forall x, Decision (P x)} (l : list A) :
  (forall x, f x = true <-> P x) -> List.filter f l = filter P l.
Proof.
  intros Hf. induction l as [|x l IH]; [reflexivity|].
  simpl. rewrite filter_cons, IH.
  destruct (decide (P x)) as [HP|HP], (f x) eqn:E; try reflexivity.
  - apply Hf in HP. congruence.
  - apply Hf in E. contradiction.
Qed.

Lemma length_filter_split {A : Type} (P : A -> Prop)
  `{!forall x, Decision (P x)} (l : list A) :
  (length (filter P l) + length (filter (fun x => ~ P x) l) = length l)%nat.
Proof.
  induction l as [|x l IH]; [reflexivity|].
  rewrite !filter_cons.
  destruct (decide (P x)), (decide (~ P x)); simpl; try lia; contradiction.
Qed.

(** ** The summary *)

(** A step of the search, with the comparisons read as relations. *)
Lemma imbalance_step_cases (st : option EnrichedChannel * float) (c : EnrichedChannel) :
  (number_lt 0 (Enriched.capacity c)
   /\ number_lt (snd st) (imbalance_ratio c)
   /\ imbalance_step st c = (Some c, imbalance_ratio c))
  \/ (number_lt 0 (Enriched.capacity c)
      /\ ~ number_lt (snd st) (imbalance_ratio c)
      /\ imbalance_step st c = st)
  \/ (~ number_lt 0 (Enriched.capacity c) /\ imbalance_step st c = st).
Proof.
  unfold imbalance_step. fold (local_ratio c). fold (imbalance_ratio c).
  destruct (js_gt (Enriched.capacity c) 0) eqn:Hcap.
  - apply js_gt_number_lt in Hcap.
    destruct (js_gt (imbalance_ratio c) (snd st)) eqn:Hgt.
    + apply js_gt_number_lt in Hgt. left. repeat split; assumption.
    + right. left. split; [assumption|]. split; [|reflexivity].
      intros H. apply js_gt_number_lt in H. congruence.
  - right. right. split; [|reflexivity].
    intros H. apply js_gt_number_lt in H. congruence.
Qed.

Lemma imbalance_inv_step (seen : list EnrichedChannel)
  (st : option EnrichedChannel * float) (c : EnrichedChannel) :
  imbalance_inv seen st -> imbalance_inv (seen ++ [c]) (imbalance_step st c).
Proof.
  intros Hinv.
  destruct (imbalance_step_cases st c)
    as [(Hcap & Hgt & ->)|[(Hcap & Hngt & ->)|(Hncap & ->)]].
  - (* strictly more imbalanced: [c] becomes the candidate *)
    assert (Hprev : number_lt 0 (imbalance_ratio c)
                    /\ forall c', c' ∈ seen -> number_lt 0 (Enriched.capacity c') ->
                         ~ number_lt (snd st) (imbalance_ratio c')).
    { destruct st as [[m|] h]; unfold imbalance_inv in Hinv; cbn [fst snd] in *.
      - destruct Hinv as (-> & i & _ & _ & Hpos & Hmax & _). split.
        + exact (number_lt_trans _ _ _ Hpos Hgt).
        + exact Hmax.
      - destruct Hinv as (-> & Hall). split; assumption. }
    destruct Hprev as (Hpos & Hmax).
    unfold imbalance_inv. cbn [fst snd]. split; [reflexivity|].
    exists (length seen). split; [|split; [|split; [|split]]].
    + now rewrite lookup_app_r, Nat.sub_diag by lia.
    + assumption.
    + assumption.
    + intros c' Hin Hc'. apply elem_of_app in Hin as [Hin|Hin].
      * intros Hlt. apply (Hmax c' Hin Hc').
        exact (number_lt_trans _ _ _ Hgt Hlt).
      * apply list_elem_of_singleton in Hin. subst c'. apply number_lt_irrefl.
    + intros j c' Hj Hlk Hc'. rewrite lookup_app_l in Hlk by assumption.
      apply list_elem_of_lookup_2 in Hlk.
      exact (number_lt_not_lt _ _ _ Hgt (Hmax c' Hlk Hc')).
  - (* not strictly more imbalanced: the state is kept *)
    destruct st as [[m|] h]; unfold imbalance_inv in *; cbn [fst snd] in *.
    + destruct Hinv as (-> & i & Hi & Hm & Hpos & Hmax & Hfirst).
      split; [reflexivity|]. exists i. split; [|split; [|split; [|split]]];
        try assumption.
      * rewrite lookup_app_l; [assumption|]. now apply lookup_lt_Some in Hi.
      * intros c' Hin Hc'. apply elem_of_app in Hin as [Hin|Hin]; [now apply Hmax|].
        apply list_elem_of_singleton in Hin. now subst c'.
      * intros j c' Hj Hlk Hc'. apply (Hfirst j); try assumption.
        rewrite lookup_app_l in Hlk; [assumption|].
        apply lookup_lt_Some in Hi. lia.
    + destruct Hinv as (-> & Hall). split; [reflexivity|].
      intros c' Hin Hc'. apply elem_of_app in Hin as [Hin|Hin]; [now apply Hall|].
      apply list_elem_of_singleton in Hin. now subst c'.
  - (* the guard [capacity > 0] fails: the state is kept *)
    destruct st as [[m|] h]; unfold imbalance_inv in *; cbn [fst snd] in *.
    + destruct Hinv as (-> & i & Hi & Hm & Hpos & Hmax & Hfirst).
      split; [reflexivity|]. exists i. split; [|split; [|split; [|split]]];
        try assumption.
      * rewrite lookup_app_l; [assumption|]. now apply lookup_lt_Some in Hi.
      * intros c' Hin Hc'. apply elem_of_app in Hin as [Hin|Hin]; [now apply Hmax|].
        apply list_elem_of_singleton in Hin. subst c'. contradiction.
      * intros j c' Hj Hlk Hc'. apply (Hfirst j); try assumption.
        rewrite lookup_app_l in Hlk; [assumption|].
        apply lookup_lt_Some in Hi. lia.
    + destruct Hinv as (-> & Hall). split; [reflexivity|].
      intros c' Hin Hc'. apply elem_of_app in Hin as [Hin|Hin]; [now apply Hall|].
      apply list_elem_of_singleton in Hin. subst c'. contradiction.
Qed.

Lemma imbalance_inv_fold (rest seen : list EnrichedChannel)
  (st : option EnrichedChannel * float) :
  imbalance_inv seen st ->
  imbalance_inv (seen ++ rest) (fold_left imbalance_step rest st).
Proof.
  revert seen st. induction rest as [|c rest IH]; intros seen st Hinv.
  - now rewrite app_nil_r.
  - simpl. replace (seen ++ c :: rest) with ((seen ++ [c]) ++ rest)
      by (now rewrite <- app_assoc).
    apply IH. now apply imbalance_inv_step.
Qed.

Lemma imbalance_search_inv (channels : list EnrichedChannel) :
  imbalance_inv channels (fold_left imbalance_step channels (None, 0%float)).
Proof.
  apply (imbalance_inv_fold channels []). unfold imbalance_inv; simpl.
  split; [reflexivity|]. intros c Hin. now apply elem_of_nil in Hin.
Qed.

Lemma mostImbalancedChannel_fold (criteria : HealthCriteria)
  (channels : list EnrichedChannel) :
  mostImbalancedChannel (calculateChannelSummary criteria channels)
  = fst (fold_left imbalance_step channels (None, 0%float)).
Proof.
  unfold calculateChannelSummary. destruct channels as [|c l]; [reflexivity|].
  cbn [length Nat.eqb].
  destruct (fold_left imbalance_step (c :: l) (None, 0%float)) as [m h].
  reflexivity.
Qed.

Lemma unhealthyChannels_filter (criteria : HealthCriteria)
  (channels : list EnrichedChannel) :
  unhealthyChannels (calculateChannelSummary criteria channels)
  = length (List.filter (unhealthy_filter criteria) channels).
Proof.
  unfold calculateChannelSummary. destruct channels as [|c l]; [reflexivity|].
  cbn [length Nat.eqb].
  destruct (fold_left imbalance_step (c :: l) (None, 0%float)) as [m h].
  reflexivity.
Qed.

Lemma healthyChannels_filter (criteria : HealthCriteria)
  (channels : list EnrichedChannel) :
  healthyChannels (calculateChannelSummary criteria channels)
  = (length channels
     - length (List.filter (unhealthy_filter criteria) channels))%nat.
Proof.
  unfold calculateChannelSummary. destruct channels as [|c l]; [reflexivity|].
  cbn [length Nat.eqb].
  destruct (fold_left imbalance_step (c :: l) (None, 0%float)) as [m h].
  reflexivity.
Qed.

Lemma unhealthy_filter_spec (criteria : HealthCriteria) (c : EnrichedChannel) :
  unhealthy_filter criteria c = true <-> Unhealthy criteria c.
Proof.
  unfold unhealthy_filter, Unhealthy. fold (local_ratio c).
  destruct (Enriched.active c); cbn [negb].
  - rewrite orb_true_iff, js_gt_number_lt, ltb_number_lt. split.
    + intros H. now right.
    + intros [H|H]; [discriminate|assumption].
  - split; [now left|reflexivity].
Qed.

(** ** The insertion-ordered map *)

Lemma JsMap_get_set (m : JsMap.t) (key value key' : string) :
  JsMap.get (JsMap.set m key value) key'
  = if String.eqb key key' then Some value else JsMap.get m key'.
Proof.
  induction m as [|[k v] rest IH]; unfold JsMap.get in *; simpl.
  - now destruct (String.eqb key key').
  - destruct (String.eqb_spec k key) as [->|Hk]; simpl.
    + now destruct (String.eqb key key').
    + destruct (String.eqb_spec k key') as [->|Hk'].
      * destruct (String.eqb_spec key key') as [->|_]; [contradiction|reflexivity].
      * exact IH.
Qed.

Lemma JsMap_has_keys (m : JsMap.t) (key : string) :
  JsMap.has m key = true <-> key ∈ JsMap.keys m.
Proof.
  unfold JsMap.has, JsMap.keys. induction m as [|[k v] rest IH]; simpl.
  - split; [discriminate|]. intros H. now apply elem_of_nil in H.
  - rewrite orb_true_iff, elem_of_cons, IH.
    destruct (String.eqb_spec k key) as [->|Hk]; intuition congruence.
Qed.

Lemma JsMap_keys_set (m : JsMap.t) (key value : string) :
  JsMap.keys (JsMap.set m key value)
  = if JsMap.has m key then JsMap.keys m else JsMap.keys m ++ [key].
Proof.
  unfold JsMap.has, JsMap.keys. induction m as [|[k v] rest IH]; simpl.
  - reflexivity.
  - destruct (String.eqb_spec k key) as [->|Hk]; simpl; [reflexivity|].
    rewrite IH. now destruct (existsb _ rest).
Qed.

(** ** Alias resolution *)

Lemma or_else_fixed (value : option string) :
  or_else (Some (or_else value "Unknown")) "Unknown" = or_else value "Unknown".
Proof.
  destruct value as [s|]; simpl; [|reflexivity].
  destruct (String.eqb_spec s "") as [->|Hs]; simpl; [reflexivity|].
  now destruct (String.eqb_spec s "").
Qed.

(** One [forEach] step of [collect_pubkeys]. *)
Lemma collect_step_keys (m : JsMap.t) (key : string) :
  JsMap.keys (if negb (JsMap.has m key) then JsMap.set m key "" else m)
  = if JsMap.has m key then JsMap.keys m else JsMap.keys m ++ [key].
Proof.
  destruct (JsMap.has m key) eqn:E; simpl; [reflexivity|].
  now rewrite JsMap_keys_set, E.
Qed.

Lemma collect_fold_keys (channels : list Channel) (m : JsMap.t) :
  NoDup (JsMap.keys m) ->
  let m' :=
    fold_left
      (fun pubkeyMap channel =>
         if negb (JsMap.has pubkeyMap (remote_pubkey channel))
         then JsMap.set pubkeyMap (remote_pubkey channel) ""
         else pubkeyMap)
      channels m in
  NoDup (JsMap.keys m')
  /\ forall key, key ∈ JsMap.keys m' <->
       key ∈ JsMap.keys m \/ key ∈ List.map remote_pubkey channels.
Proof.
  revert m. induction channels as [|c rest IH]; intros m Hm; simpl.
  - split; [assumption|]. intros key. rewrite elem_of_nil. tauto.
  - set (m1 := if negb (JsMap.has m (remote_pubkey c))
               then JsMap.set m (remote_pubkey c) "" else m).
    assert (Hkeys : JsMap.keys m1
                    = if JsMap.has m (remote_pubkey c) then JsMap.keys m
                      else JsMap.keys m ++ [remote_pubkey c])
      by apply collect_step_keys.
    assert (Hm1 : NoDup (JsMap.keys m1)).
    { rewrite Hkeys. destruct (JsMap.has m (remote_pubkey c)) eqn:E; [assumption|].
      apply NoDup_app. split; [assumption|]. split.
      - intros x Hx Hx'. apply list_elem_of_singleton in Hx'. subst x.
        apply JsMap_has_keys in Hx. congruence.
      - apply NoDup_singleton. }
    destruct (IH m1 Hm1) as [Hnd Hin]. split; [exact Hnd|].
    intros key. rewrite Hin, Hkeys, elem_of_cons.
    destruct (JsMap.has m (remote_pubkey c)) eqn:E.
    + apply JsMap_has_keys in E. intuition (subst; auto).
    + rewrite elem_of_app, list_elem_of_singleton. tauto.
Qed.

Lemma collect_pubkeys_NoDup (channels : list Channel) :
  NoDup (JsMap.keys (collect_pubkeys channels)).
Proof. apply (collect_fold_keys channels []). constructor. Qed.

Lemma collect_pubkeys_elem (channels : list Channel) (key : string) :
  key ∈ JsMap.keys (collect_pubkeys channels)
  <-> key ∈ List.map remote_pubkey channels.
Proof.
  destruct (collect_fold_keys channels [] (NoDup_nil_2)) as [_ H].
  unfold collect_pubkeys. rewrite H. simpl. rewrite elem_of_nil. tauto.
Qed.

Section Resolution.

Context {Lnd : Type}.
Variable getLnd : Completion Lnd.
Variable getNodeInfo : Lnd -> string -> Completion (option NodeInfo).
Variable sanitizeError : Error -> Error.

Lemma lookup_alias_fixed (lnd : Lnd) (key : string) :
  or_else (Some (lookup_alias getNodeInfo lnd key)) "Unknown"
  = lookup_alias getNodeInfo lnd key.
Proof.
  unfold lookup_alias. destruct (getNodeInfo lnd key); [|reflexivity].
  apply or_else_fixed.
Qed.

Lemma nodeInfoPromise_run (lnd : Lnd) (errorMap : gmap string ErrorInfo.t)
  (key : string) :
  nodeInfoPromise getNodeInfo sanitizeError lnd errorMap key
  = (Normal (lookup_entry getNodeInfo lnd key,
             record_error getNodeInfo sanitizeError lnd errorMap key),
     [GetNodeInfo key]).
Proof.
  unfold nodeInfoPromise, lookup_entry, record_error, lookup_alias, lookup_error.
  unfold try_catch, bind, call, ret.
  destruct (getNodeInfo lnd key); reflexivity.
Qed.

Lemma nodeInfoPromises_run (lnd : Lnd) (pubkeys : list string)
  (errorMap : gmap string ErrorInfo.t) :
  nodeInfoPromises getNodeInfo sanitizeError lnd errorMap pubkeys
  = (Normal (List.map (lookup_entry getNodeInfo lnd) pubkeys,
             fold_left (record_error getNodeInfo sanitizeError lnd) pubkeys errorMap),
     List.map GetNodeInfo pubkeys).
Proof.
  revert errorMap. induction pubkeys as [|key rest IH]; intros errorMap.
  - reflexivity.
  - cbn [nodeInfoPromises]. rewrite nodeInfoPromise_run.
    unfold bind at 1. cbn [snd fst]. rewrite IH.
    unfold bind, ret. cbn [fst snd]. now rewrite app_nil_r.
Qed.

Lemma errorMap_lookup (lnd : Lnd) (pubkeys : list string)
  (errorMap : gmap string ErrorInfo.t) (key : string) :
  fold_left (record_error getNodeInfo sanitizeError lnd) pubkeys errorMap !! key
  = if decide (key ∈ pubkeys)
    then match lookup_error getNodeInfo sanitizeError lnd key with
         | Some errorInfo => Some errorInfo
         | None => errorMap !! key
         end
    else errorMap !! key.
Proof.
  revert errorMap. induction pubkeys as [|p rest IH]; intros errorMap.
  - reflexivity.
  - simpl. rewrite IH.
    assert (Hp : record_error getNodeInfo sanitizeError lnd errorMap p !! key
                 = if decide (p = key)
                   then match lookup_error getNodeInfo sanitizeError lnd key with
                        | Some errorInfo => Some errorInfo
                        | None => errorMap !! key
                        end
                   else errorMap !! key).
    { unfold record_error. destruct (decide (p = key)) as [->|Hne].
      - destruct (lookup_error _ _ lnd key); [apply lookup_insert_eq|reflexivity].
      - destruct (lookup_error _ _ lnd p); [now apply lookup_insert_ne|reflexivity]. }
    rewrite Hp.
    destruct (decide (key ∈ rest)) as [Hin|Hnin];
      destruct (decide (key ∈ p :: rest)) as [Hin'|Hnin'];
      destruct (decide (p = key)) as [Heq|Hne];
      try reflexivity.
    + now destruct (lookup_error _ _ lnd key).
    + exfalso. apply Hnin'. now right.
    + exfalso. apply Hnin'. now right.
    + apply elem_of_cons in Hin' as [Hk|Hk]; [congruence|contradiction].
    + exfalso. apply Hnin'. subst. now left.
Qed.

Lemma pubkeyMap_lookup (lnd : Lnd) (pubkeys : list string) (m : JsMap.t)
  (key : string) :
  JsMap.get
    (fold_left (fun m info => JsMap.set m (pubkey info) (entry_alias info))
       (List.map (lookup_entry getNodeInfo lnd) pubkeys) m) key
  = if decide (key ∈ pubkeys)
    then Some (lookup_alias getNodeInfo lnd key)
    else JsMap.get m key.
Proof.
  revert m. induction pubkeys as [|p rest IH]; intros m.
  - reflexivity.
  - simpl. rewrite IH, JsMap_get_set.
    destruct (decide (key ∈ rest)) as [Hin|Hnin];
      destruct (decide (key ∈ p :: rest)) as [Hin'|Hnin'];
      try reflexivity.
    + exfalso. apply Hnin'. now right.
    + apply elem_of_cons in Hin' as [->|Hk]; [|contradiction].
      now rewrite String.eqb_refl.
    + destruct (String.eqb_spec p key) as [->|Hne]; [|reflexivity].
      exfalso. apply Hnin'. now left.
Qed.

(** The whole run of [addNodeAliases]: its completion and the calls issued. *)
Lemma addNodeAliases_run (channels : list Channel) :
  addNodeAliases getLnd getNodeInfo sanitizeError channels
  = (Normal (List.map (resolve_spec getLnd getNodeInfo sanitizeError) channels),
     match getLnd with
     | Normal _ =>
         GetLnd :: List.map GetNodeInfo (JsMap.keys (collect_pubkeys channels))
     | Throw _ => [GetLnd]
     end).
Proof.
  unfold addNodeAliases, resolve_spec. destruct getLnd as [lnd|error].
  - unfold call. unfold bind at 1. rewrite nodeInfoPromises_run.
    unfold bind, ret, try_catch. cbn [fst snd]. rewrite app_nil_r.
    f_equal. f_equal. apply map_ext_in. intros c Hc.
    assert (Hkey : remote_pubkey c ∈ JsMap.keys (collect_pubkeys channels)).
    { apply collect_pubkeys_elem. apply list_elem_of_In. now apply in_map. }
    rewrite errorMap_lookup, pubkeyMap_lookup.
    rewrite !decide_True by assumption.
    rewrite lookup_empty, lookup_alias_fixed.
    now destruct (lookup_error getNodeInfo sanitizeError lnd (remote_pubkey c)).
  - reflexivity.
Qed.

Lemma formatter_calls_map (keys : list string) :
  List.filter is_formatter_call (List.map GetNodeInfo keys) = [].
Proof. induction keys as [|k rest IH]; [reflexivity|exact IH]. Qed.

(** The whole run of [enrichChannelsWithMetadata]. *)
Lemma enrich_run (channels : list Channel) :
  exists issued,
    enrichChannelsWithMetadata getLnd getNodeInfo sanitizeError channels
    = (Normal (List.map (resolve_spec getLnd getNodeInfo sanitizeError) channels),
       issued)
    /\ List.filter is_formatter_call issued = [].
Proof.
  unfold enrichChannelsWithMetadata. destruct channels as [|c rest].
  - exists []. split; reflexivity.
  - cbn [length Nat.eqb]. rewrite addNodeAliases_run. eexists. split; [reflexivity|].
    destruct getLnd; [|reflexivity]. cbn [List.filter is_formatter_call].
    apply formatter_calls_map.
Qed.

End Resolution.

(** ** The handler's runs *)

Lemma node_info_lookups_map (keys : list string) :
  node_info_lookups (List.map GetNodeInfo keys) = keys.
Proof.
  induction keys as [|k rest IH]; [reflexivity|].
  unfold node_info_lookups in *. simpl. now rewrite IH.
Qed.

Section Runs.

Context {Lnd : Type}.
Variable getLnd : nat -> Completion Lnd.
Variable getChannels : Lnd -> Completion ChannelsProperty.
Variable getNodeInfo : Lnd -> string -> Completion (option NodeInfo).
Variable sanitizeError : Error -> Error.
Variable formatChannelList : ChannelQueryResult -> string.
Variable formatChannelHealth : ChannelQueryResult -> string.
Variable formatChannelLiquidity : ChannelQueryResult -> string.
Variable healthCriteria : HealthCriteria.

Local Abbreviation resolve := (resolve_spec (getLnd 1) getNodeInfo sanitizeError).
Local Abbreviation fetch := (fetchRawChannelData (getLnd 0) getChannels).
Local Abbreviation channelData :=
  (getChannelData getLnd getChannels getNodeInfo sanitizeError healthCriteria).

Lemma fetch_run :
  exists issued,
    List.filter is_formatter_call issued = []
    /\ (fetch = (Normal (match completion fetch with
                         | Normal channels => channels
                         | Throw _ => []
                         end), issued)
        \/ exists raw, fetch = (Throw raw, issued)).
Proof.
  unfold fetchRawChannelData, completion, bind, call, ret.
  destruct (getLnd 0) as [lnd|raw].
  - destruct (getChannels lnd) as [[| |channels]|raw]; cbn [fst];
      eexists; (split; [|first [left; reflexivity | right; eexists; reflexivity]]);
      reflexivity.
  - eexists. split; [|right; eexists; reflexivity]. reflexivity.
Qed.

(** [getChannelData] either returns the enriched channels with their summary
    or throws the sanitized form of what the fetch threw. *)
Lemma getChannelData_run :
  exists issued,
    List.filter is_formatter_call issued = []
    /\ match completion fetch with
       | Normal channels =>
           channelData
           = (Normal {| channels := List.map resolve channels;
                        summary := calculateChannelSummary healthCriteria
                                     (List.map resolve channels) |}, issued)
       | Throw raw => channelData = (Throw (sanitizeError raw), issued)
       end.
Proof.
  unfold getChannelData.
  destruct fetch_run as (issued & Hfmt & [Hrun|[raw Hrun]]).
  - rewrite Hrun. cbn [completion fst].
    destruct (enrich_run (getLnd 1) getNodeInfo sanitizeError
                (match completion fetch with
                 | Normal channels => channels
                 | Throw _ => []
                 end)) as (issued' & Henrich & Hfmt').
    exists (issued ++ issued'). split.
    + rewrite List.filter_app, Hfmt, Hfmt'. reflexivity.
    + unfold bind at 1. rewrite Henrich. unfold bind, ret, try_catch.
      now rewrite app_nil_r.
  - rewrite Hrun. cbn [completion fst]. exists issued. split; [assumption|].
    unfold bind, try_catch, throw. now rewrite app_nil_r.
Qed.

End Runs.

(** ** Properties of the summary *)

(** C2: for every list of channels and every health criteria, the summary
    satisfies [healthyChannels + unhealthyChannels = channels.length]. *)
Theorem healthy_plus_unhealthy (criteria : HealthCriteria)
  (channels : list EnrichedChannel) :
  (healthyChannels (calculateChannelSummary criteria channels)
   + unhealthyChannels (calculateChannelSummary criteria channels)
   = length channels)%nat.
Proof.
  rewrite healthyChannels_filter, unhealthyChannels_filter.
  pose proof (List.filter_length_le (unhealthy_filter criteria) channels).
  lia.
Qed.

(** C5, as the code has it: the most imbalanced channel is absent exactly
    when no channel of positive capacity has a positive imbalance ratio (so
    also for the empty set); when present it is a channel of the input with
    positive capacity and positive imbalance ratio
    [abs(0.5 - local_balance/capacity)], computed in floating point, no
    channel of positive capacity has a higher ratio, and no earlier channel
    of positive capacity has a ratio as high (ties keep the first in input
    order). *)
Theorem mostImbalancedChannel_characterised (criteria : HealthCriteria)
  (channels : list EnrichedChannel) :
  (mostImbalancedChannel (calculateChannelSummary criteria channels) = None
   <-> forall c, c ∈ channels -> number_lt 0 (Enriched.capacity c) ->
         ~ number_lt 0 (imbalance_ratio c))
  /\ forall m,
       mostImbalancedChannel (calculateChannelSummary criteria channels) = Some m ->
       exists i : nat,
         channels !! i = Some m
         /\ number_lt 0 (Enriched.capacity m)
         /\ number_lt 0 (imbalance_ratio m)
         /\ (forall c, c ∈ channels -> number_lt 0 (Enriched.capacity c) ->
               ~ number_lt (imbalance_ratio m) (imbalance_ratio c))
         /\ (forall (j : nat) c, (j < i)%nat -> channels !! j = Some c ->
               number_lt 0 (Enriched.capacity c) ->
               ~ number_le (imbalance_ratio m) (imbalance_ratio c)).
Proof.
  rewrite mostImbalancedChannel_fold.
  pose proof (imbalance_search_inv channels) as Hinv.
  unfold imbalance_inv in Hinv.
  destruct (fold_left imbalance_step channels (None, 0%float)) as [[m|] h];
    cbn [fst snd] in *.
  - destruct Hinv as (_ & i & Hi & Hm & Hr & Hmax & Hfirst). split.
    + split; [discriminate|]. intros Hall. exfalso.
      apply list_elem_of_lookup_2 in Hi. exact (Hall m Hi Hm Hr).
    + intros m' [= <-]. exists i. repeat split; assumption.
  - destruct Hinv as (_ & Hall). split.
    + split; [intros _; exact Hall|reflexivity].
    + discriminate.
Qed.

(** C6: the summary counts a channel as unhealthy if and only if it is
    inactive or its local ratio [local_balance/capacity] is strictly below
    [minLocalRatio] or strictly above [maxLocalRatio], and as healthy
    otherwise, in a list as well as on its own; a channel whose ratio is
    0.05 is unhealthy under the default criteria. *)
Theorem unhealthy_count_spec (criteria : HealthCriteria)
  (channels : list EnrichedChannel) :
  unhealthyChannels (calculateChannelSummary criteria channels)
  = length (filter (Unhealthy criteria) channels)
  /\ healthyChannels (calculateChannelSummary criteria channels)
     = length (filter (fun c => ~ Unhealthy criteria c) channels)
  /\ (forall c,
        (Unhealthy criteria c
         <-> unhealthyChannels (calculateChannelSummary criteria [c]) = 1%nat
             /\ healthyChannels (calculateChannelSummary criteria [c]) = 0%nat)
        /\ (~ Unhealthy criteria c
            <-> unhealthyChannels (calculateChannelSummary criteria [c]) = 0%nat
                /\ healthyChannels (calculateChannelSummary criteria [c]) = 1%nat))
  /\ (forall c, local_ratio c = 0.05%float ->
        Unhealthy defaultHealthCriteria c
        /\ unhealthyChannels (calculateChannelSummary defaultHealthCriteria [c]) = 1%nat
        /\ healthyChannels (calculateChannelSummary defaultHealthCriteria [c]) = 0%nat).
Proof.
  assert (Hcount : List.filter (unhealthy_filter criteria) channels
                   = filter (Unhealthy criteria) channels).
  { apply filter_bool_decide. apply unhealthy_filter_spec. }
  assert (Hone : forall crit c,
            (Unhealthy crit c
             <-> unhealthyChannels (calculateChannelSummary crit [c]) = 1%nat
                 /\ healthyChannels (calculateChannelSummary crit [c]) = 0%nat)
            /\ (~ Unhealthy crit c
                <-> unhealthyChannels (calculateChannelSummary crit [c]) = 0%nat
                    /\ healthyChannels (calculateChannelSummary crit [c]) = 1%nat)).
  { intros crit c. rewrite healthyChannels_filter, unhealthyChannels_filter.
    rewrite <- unhealthy_filter_spec. cbn [List.filter].
    destruct (unhealthy_filter crit c); cbn [length Nat.sub]; split; split;
      solve [intros _; split; reflexivity
            | intros [H _]; discriminate
            | intros _; reflexivity
            | intros _; discriminate
            | intros H; exfalso; apply H; reflexivity
            | intros H; discriminate ]. }
  split; [|split; [|split]].
  - now rewrite unhealthyChannels_filter, Hcount.
  - rewrite healthyChannels_filter, Hcount.
    pose proof (length_filter_split (Unhealthy criteria) channels). lia.
  - intros c. apply Hone.
  - intros c Hr.
    assert (Hu : Unhealthy defaultHealthCriteria c).
    { right. left. rewrite Hr. vm_compute. reflexivity. }
    split; [assumption|]. now apply Hone.
Qed.

(** ** Properties of alias resolution *)

Section Claims.

Context {Lnd : Type}.
Variable getLnd : Completion Lnd.
Variable getNodeInfo : Lnd -> string -> Completion (option NodeInfo).
Variable sanitizeError : Error -> Error.

(** C3, as the code has it: alias resolution returns a list of the same
    length as its input; when the fan-out starts (the LND handle is obtained)
    the node-info lookups issued are exactly the distinct [remote_pubkey]
    values, one lookup each, whatever the number of channels; when it cannot
    start, no lookup is issued. *)
Theorem alias_lookups_one_per_distinct_peer (channels : list Channel) :
  (exists enriched,
      completion (addNodeAliases getLnd getNodeInfo sanitizeError channels)
      = Normal enriched
      /\ length enriched = length channels)
  /\ node_info_lookups (calls (addNodeAliases getLnd getNodeInfo sanitizeError channels))
     ≡ₚ match getLnd with
        | Normal _ => remove_dups (List.map remote_pubkey channels)
        | Throw _ => []
        end.
Proof.
  rewrite addNodeAliases_run. cbn [completion calls fst snd]. split.
  - eexists. split; [reflexivity|]. apply length_map.
  - destruct getLnd as [lnd|error]; [|reflexivity].
    change (node_info_lookups (GetLnd :: ?l)) with (node_info_lookups l).
    rewrite node_info_lookups_map. apply NoDup_Permutation.
    + apply collect_pubkeys_NoDup.
    + apply NoDup_remove_dups.
    + intros key. rewrite collect_pubkeys_elem. symmetry. apply elem_of_remove_dups.
Qed.

(** C4: alias resolution never throws and drops no channel: the enriched
    list has an entry for every input channel, at the same position and with
    the same channel fields.  When the fan-out runs, the entry of a channel
    whose peer's lookup failed has [remote_alias] "Unknown (Error retrieving)"
    and carries an [alias_retrieval_failed] annotation with the sanitized
    message, and the entry of a channel whose peer's lookup succeeded has the
    resolved alias and no annotation.  When the fan-out cannot run, every
    entry has the placeholder and one shared annotation. *)
Theorem alias_resolution_isolates_failures (channels : list Channel) :
  exists enriched,
    completion (addNodeAliases getLnd getNodeInfo sanitizeError channels)
    = Normal enriched
    /\ length enriched = length channels
    /\ forall (i : nat) c, channels !! i = Some c ->
         exists e,
           enriched !! i = Some e
           /\ channel_of e = c
           /\ match getLnd with
              | Normal lnd =>
                  match getNodeInfo lnd (remote_pubkey c) with
                  | Throw error =>
                      Enriched.remote_alias e = "Unknown (Error retrieving)"
                      /\ Enriched._error e
                         = Some {| ErrorInfo.type := "alias_retrieval_failed";
                                   ErrorInfo.message := message (sanitizeError error) |}
                  | Normal nodeInfo =>
                      Enriched.remote_alias e
                      = or_else (optional_alias nodeInfo) "Unknown"
                      /\ Enriched._error e = None
                  end
              | Throw error =>
                  Enriched.remote_alias e = "Unknown (Error retrieving)"
                  /\ Enriched._error e
                     = Some {| ErrorInfo.type := "alias_retrieval_failed";
                               ErrorInfo.message := message (sanitizeError error) |}
              end.
Proof.
  rewrite addNodeAliases_run. cbn [completion fst].
  eexists. split; [reflexivity|]. split; [apply length_map|].
  intros i c Hi. exists (resolve_spec getLnd getNodeInfo sanitizeError c).
  split; [|split].
  - change (List.map ?f ?l) with (f <$> l). now rewrite list_lookup_fmap, Hi.
  - destruct c as [pk cap lb rb act]. unfold resolve_spec. now destruct getLnd.
  - unfold resolve_spec, lookup_alias, lookup_error.
    destruct getLnd as [lnd|error]; [|split; reflexivity].
    destruct (getNodeInfo lnd (remote_pubkey c)); split; reflexivity.
Qed.

(** C9: the enriched channel at each position retains every field of the
    input channel at that position with its value unchanged: enrichment only
    adds [remote_alias] and the optional error annotation. *)
Theorem enrichment_retains_channel_fields (channels : list Channel) :
  exists enriched,
    completion (addNodeAliases getLnd getNodeInfo sanitizeError channels)
    = Normal enriched
    /\ List.map channel_of enriched = channels
    /\ forall (i : nat) c, channels !! i = Some c ->
         exists e, enriched !! i = Some e
           /\ Enriched.remote_pubkey e = remote_pubkey c
           /\ Enriched.capacity e = capacity c
           /\ Enriched.local_balance e = local_balance c
           /\ Enriched.remote_balance e = remote_balance c
           /\ Enriched.active e = active c.
Proof.
  rewrite addNodeAliases_run. cbn [completion fst]. eexists. split; [reflexivity|].
  assert (Hframe : forall c,
            channel_of (resolve_spec getLnd getNodeInfo sanitizeError c) = c).
  { intros [pk cap lb rb act]. unfold resolve_spec. now destruct getLnd. }
  split.
  - rewrite List.map_map. rewrite <- (List.map_id channels) at 2.
    apply map_ext. exact Hframe.
  - intros i c Hi.
    exists (resolve_spec getLnd getNodeInfo sanitizeError c). split.
    + change (List.map ?f ?l) with (f <$> l). now rewrite list_lookup_fmap, Hi.
    + specialize (Hframe c). destruct c as [pk cap lb rb act].
      unfold resolve_spec in *. destruct getLnd; repeat split; reflexivity.
Qed.

(** C10: if the lookup of a peer succeeds but yields no alias (a nullish
    node info, a missing alias or an empty one), every channel with that peer
    gets [remote_alias] "Unknown", which differs from the failure
    placeholder, and no error annotation. *)
Theorem missing_alias_is_Unknown (channels : list Channel) (lnd : Lnd)
  (nodeInfo : option NodeInfo) (i : nat) (c : Channel) :
  getLnd = Normal lnd ->
  getNodeInfo lnd (remote_pubkey c) = Normal nodeInfo ->
  optional_alias nodeInfo = None \/ optional_alias nodeInfo = Some "" ->
  channels !! i = Some c ->
  exists enriched e,
    completion (addNodeAliases getLnd getNodeInfo sanitizeError channels)
    = Normal enriched
    /\ enriched !! i = Some e
    /\ e = spread c "Unknown" None
    /\ Enriched.remote_alias e = "Unknown"
    /\ Enriched.remote_alias e <> "Unknown (Error retrieving)"
    /\ Enriched._error e = None.
Proof.
  intros Hlnd Hinfo Halias Hi. rewrite addNodeAliases_run. cbn [completion fst].
  eexists. exists (spread c "Unknown" None). split; [reflexivity|].
  split; [|repeat split; discriminate].
  change (List.map ?f ?l) with (f <$> l). rewrite list_lookup_fmap, Hi.
  cbn [fmap option_fmap option_map]. f_equal.
  unfold resolve_spec, lookup_alias, lookup_error. rewrite Hlnd, Hinfo.
  now destruct Halias as [-> | ->].
Qed.

End Claims.

(** ** Properties of the handler *)

Section QueryClaims.

Context {Lnd : Type}.
Variable getLnd : nat -> Completion Lnd.
Variable getChannels : Lnd -> Completion ChannelsProperty.
Variable getNodeInfo : Lnd -> string -> Completion (option NodeInfo).
Variable sanitizeError : Error -> Error.
Variable formatChannelList : ChannelQueryResult -> string.
Variable formatChannelHealth : ChannelQueryResult -> string.
Variable formatChannelLiquidity : ChannelQueryResult -> string.
Variable healthCriteria : HealthCriteria.

(** C1: [handleQuery] always resolves and never rejects.  Enrichment raises
    nothing, whatever the call of [getLnd()] it makes yields; an error raised
    by the channel retrieval is sanitized and returned as a result of type
    'error' with the sanitized error in its [error] field and the empty
    object as data; otherwise the result carries no error. *)
Theorem handleQuery_always_resolves (intent : Intent.t) :
  (exists result issued,
      handleQuery getLnd getChannels getNodeInfo sanitizeError
        formatChannelList formatChannelHealth formatChannelLiquidity
        healthCriteria intent
      = (Resolved result, issued)
      /\ match completion (fetchRawChannelData (getLnd 0) getChannels) with
         | Throw raw =>
             result = error_result (sanitizeError raw)
             /\ QueryResult.type result = Some "error"
             /\ QueryResult.error result = Some (sanitizeError raw)
             /\ QueryResult.data result = EmptyObject
         | Normal _ =>
             QueryResult.error result = None
             /\ QueryResult.type result <> Some "error"
         end)
  /\ forall (nth_call : nat) channels, exists enriched,
       completion (enrichChannelsWithMetadata (getLnd nth_call) getNodeInfo
                     sanitizeError channels)
       = Normal enriched.
Proof.
  split.
  - unfold handleQuery, handleQuery_body.
    destruct (getChannelData_run getLnd getChannels getNodeInfo sanitizeError
                healthCriteria) as (issued & _ & Hrun).
    destruct (completion (fetchRawChannelData (getLnd 0) getChannels))
      as [raw_channels|raw].
    + rewrite Hrun. unfold bind at 1.
      destruct (String.eqb (Intent.type intent) "channel_list");
        [|destruct (String.eqb (Intent.type intent) "channel_health");
          [|destruct (String.eqb (Intent.type intent) "channel_liquidity")]];
        cbn; eexists; eexists; (split; [reflexivity|]); split;
        solve [reflexivity | discriminate].
    + rewrite Hrun. cbn. eexists. eexists. split; [reflexivity|].
      repeat split.
  - intros nth_call channels.
    destruct (enrich_run (getLnd nth_call) getNodeInfo sanitizeError channels)
      as (issued & Hrun & _).
    eexists. now rewrite Hrun.
Qed.

(** C7: for an intent whose type is none of [channel_list], [channel_health]
    and [channel_liquidity], and when the channel fetch does not fail,
    [handleQuery] resolves to the result of type 'unknown' with the fixed
    guidance text and empty data, and no formatter view is called. *)
Theorem unknown_intent_guidance (intent : Intent.t) (raw_channels : list Channel) :
  Intent.type intent <> "channel_list" ->
  Intent.type intent <> "channel_health" ->
  Intent.type intent <> "channel_liquidity" ->
  completion (fetchRawChannelData (getLnd 0) getChannels) = Normal raw_channels ->
  exists issued,
    handleQuery getLnd getChannels getNodeInfo sanitizeError
      formatChannelList formatChannelHealth formatChannelLiquidity
      healthCriteria intent
    = (Resolved
         {| QueryResult.type := Some "unknown";
            QueryResult.text :=
              Some "I didn't understand that query. Try asking about your channel list, health, or liquidity.";
            QueryResult.response :=
              "I didn't understand that query. Try asking about your channel list, health, or liquidity.";
            QueryResult.data := EmptyObject;
            QueryResult.error := None |},
       issued)
    /\ List.filter is_formatter_call issued = [].
Proof.
  intros Hlist Hhealth Hliquidity Hfetch.
  unfold handleQuery, handleQuery_body.
  destruct (getChannelData_run getLnd getChannels getNodeInfo sanitizeError
              healthCriteria) as (issued & Hfmt & Hrun).
  rewrite Hfetch in Hrun. rewrite Hrun. unfold bind at 1.
  apply String.eqb_neq in Hlist, Hhealth, Hliquidity.
  rewrite Hlist, Hhealth, Hliquidity. cbn.
  exists (issued ++ []). split; [reflexivity|]. now rewrite app_nil_r.
Qed.

(** C8: when the channel fetch yields no data or a value that is not an
    array, the channel set is empty and no error is raised: enrichment is
    skipped (it returns the empty list, without a second call of [getLnd()]
    and without a lookup), the summary has every total and counter at zero
    and no most imbalanced channel, and [handleQuery] resolves to a result
    without error. *)
Theorem no_channel_data_is_empty_set (lnd : Lnd) (property : ChannelsProperty) :
  getLnd 0%nat = Normal lnd ->
  getChannels lnd = Normal property ->
  property = NoData \/ property = NotAnArray ->
  fetchRawChannelData (getLnd 0) getChannels = (Normal [], [GetLnd; GetChannels])
  /\ enrichChannelsWithMetadata (getLnd 1) getNodeInfo sanitizeError []
     = (Normal [], [])
  /\ getChannelData getLnd getChannels getNodeInfo sanitizeError healthCriteria
     = (Normal {| channels := [];
                  summary :=
                    {| totalCapacity := 0;
                       totalLocalBalance := 0;
                       totalRemoteBalance := 0;
                       activeChannels := 0;
                       inactiveChannels := 0;
                       averageCapacity := 0;
                       mostImbalancedChannel := None;
                       healthyChannels := 0;
                       unhealthyChannels := 0 |} |},
        [GetLnd; GetChannels])
  /\ forall intent, exists result issued,
       handleQuery getLnd getChannels getNodeInfo sanitizeError
         formatChannelList formatChannelHealth formatChannelLiquidity
         healthCriteria intent
       = (Resolved result, issued)
       /\ QueryResult.error result = None
       /\ QueryResult.type result <> Some "error"
       /\ node_info_lookups issued = [].
Proof.
  intros Hlnd Hchannels Hproperty.
  assert (Hfetch : fetchRawChannelData (getLnd 0) getChannels
                   = (Normal [], [GetLnd; GetChannels])).
  { unfold fetchRawChannelData. rewrite Hlnd. unfold call, bind at 1.
    rewrite Hchannels. now destruct Hproperty as [-> | ->]. }
  assert (Hdata : getChannelData getLnd getChannels getNodeInfo sanitizeError
                    healthCriteria
                  = (Normal {| channels := []; summary := empty_summary |},
                     [GetLnd; GetChannels])).
  { unfold getChannelData. now rewrite Hfetch. }
  split; [exact Hfetch|]. split; [reflexivity|]. split; [exact Hdata|].
  intros intent. unfold handleQuery, handleQuery_body. rewrite Hdata.
  unfold bind at 1.
  destruct (String.eqb (Intent.type intent) "channel_list");
    [|destruct (String.eqb (Intent.type intent) "channel_health");
      [|destruct (String.eqb (Intent.type intent) "channel_liquidity")]];
    cbn; eexists; eexists; (split; [reflexivity|]); repeat split; discriminate.
Qed.

End QueryClaims.

(** ** The properties at the sample inputs *)

(** C5: a single perfectly balanced channel is a non-empty set whose summary
    has no most imbalanced channel. *)
Lemma balanced_channel_has_no_most_imbalanced :
  mostImbalancedChannel
    (calculateChannelSummary defaultHealthCriteria
       [spread Sample.balanced "alice" None]) = None
  /\ [spread Sample.balanced "alice" None] <> [].
Proof. split; [vm_compute; reflexivity|discriminate]. Qed.

(** C5 at two channels with local ratios 1900/2000 and 50/1000: the computed
    imbalance ratios are 0.44999999999999996 and 0.45, so the second channel
    is the most imbalanced one, and the first is strictly below it. *)
Lemma mostImbalancedChannel_sample :
  mostImbalancedChannel (calculateChannelSummary defaultHealthCriteria Sample.near_tie)
  = Some (spread Sample.depleted "bob" None)
  /\ Sample.near_tie !! 1%nat = Some (spread Sample.depleted "bob" None)
  /\ imbalance_ratio (spread Sample.saturated "Unknown" None)
     = 0.44999999999999996%float
  /\ imbalance_ratio (spread Sample.depleted "bob" None) = 0.45%float
  /\ exists i : nat,
       Sample.near_tie !! i = Some (spread Sample.depleted "bob" None)
       /\ (forall c, c ∈ Sample.near_tie -> number_lt 0 (Enriched.capacity c) ->
             ~ number_lt (imbalance_ratio (spread Sample.depleted "bob" None))
                 (imbalance_ratio c))
       /\ (forall (j : nat) c, (j < i)%nat -> Sample.near_tie !! j = Some c ->
             number_lt 0 (Enriched.capacity c) ->
             ~ number_le (imbalance_ratio (spread Sample.depleted "bob" None))
                 (imbalance_ratio c)).
Proof.
  assert (Hm : mostImbalancedChannel
                 (calculateChannelSummary defaultHealthCriteria Sample.near_tie)
               = Some (spread Sample.depleted "bob" None))
    by (vm_compute; reflexivity).
  split; [exact Hm|]. split; [reflexivity|].
  split; [vm_compute; reflexivity|]. split; [vm_compute; reflexivity|].
  destruct (proj2 (mostImbalancedChannel_characterised defaultHealthCriteria
                     Sample.near_tie) _ Hm)
    as (i & Hi & _ & _ & Hmax & Hfirst).
  exists i. split; [assumption|]. split; assumption.
Defined.

(** C6 at the depleted channel: its ratio is 0.05 and it is counted
    unhealthy. *)
Lemma unhealthy_count_sample :
  local_ratio (spread Sample.depleted "bob" None) = 0.05%float
  /\ Unhealthy defaultHealthCriteria (spread Sample.depleted "bob" None)
  /\ unhealthyChannels
       (calculateChannelSummary defaultHealthCriteria
          [spread Sample.depleted "bob" None]) = 1%nat
  /\ healthyChannels
       (calculateChannelSummary defaultHealthCriteria
          [spread Sample.depleted "bob" None]) = 0%nat.
Proof.
  assert (Hr : local_ratio (spread Sample.depleted "bob" None) = 0.05%float)
    by (vm_compute; reflexivity).
  split; [exact Hr|].
  exact (proj2 (proj2 (proj2 (unhealthy_count_spec defaultHealthCriteria [])))
           (spread Sample.depleted "bob" None) Hr).
Defined.

(** C3: when the handle cannot be obtained, no lookup is issued although the
    channel list has one distinct peer. *)
Lemma no_lookup_when_fanout_cannot_start :
  node_info_lookups
    (calls (addNodeAliases Sample.disconnected Sample.nodeInfo Sample.sanitize
              [Sample.balanced])) = []
  /\ remove_dups (List.map remote_pubkey [Sample.balanced]) = ["02aa"]
  /\ length (remove_dups (List.map remote_pubkey [Sample.balanced])) = 1%nat.
Proof. repeat split. Qed.

(** C3 at the sample portfolio: four channels, three distinct peers, three
    lookups. *)
Lemma alias_lookups_sample :
  node_info_lookups
    (calls (addNodeAliases Sample.connected Sample.nodeInfo Sample.sanitize
              Sample.portfolio))
  ≡ₚ remove_dups (List.map remote_pubkey Sample.portfolio)
  /\ node_info_lookups
       (calls (addNodeAliases Sample.connected Sample.nodeInfo Sample.sanitize
                 Sample.portfolio))
     = ["02aa"; "03bb"; "03cc"].
Proof.
  split; [|reflexivity].
  exact (proj2 (alias_lookups_one_per_distinct_peer Sample.connected
                  Sample.nodeInfo Sample.sanitize Sample.portfolio)).
Defined.

(** C4 at the sample portfolio: the channel of the failing peer 03bb is
    marked and annotated, the channels of the other peers are not. *)
Lemma alias_resolution_sample :
  exists enriched e0 e1 e3,
    completion (addNodeAliases Sample.connected Sample.nodeInfo Sample.sanitize
                  Sample.portfolio) = Normal enriched
    /\ length enriched = 4%nat
    /\ enriched !! 0%nat = Some e0
    /\ Enriched.remote_alias e0 = "alice" /\ Enriched._error e0 = None
    /\ enriched !! 1%nat = Some e1
    /\ Enriched.remote_alias e1 = "Unknown (Error retrieving)"
    /\ Enriched._error e1
       = Some {| ErrorInfo.type := "alias_retrieval_failed";
                 ErrorInfo.message := "sanitized: node not found" |}
    /\ enriched !! 3%nat = Some e3
    /\ Enriched.remote_alias e3 = "Unknown" /\ Enriched._error e3 = None.
Proof.
  destruct (alias_resolution_isolates_failures Sample.connected Sample.nodeInfo
              Sample.sanitize Sample.portfolio)
    as (enriched & Hrun & Hlen & Hall).
  destruct (Hall 0%nat Sample.balanced eq_refl) as (e0 & H0 & _ & Ha0 & He0).
  destruct (Hall 1%nat Sample.depleted eq_refl) as (e1 & H1 & _ & Ha1 & He1).
  destruct (Hall 3%nat Sample.saturated eq_refl) as (e3 & H3 & _ & Ha3 & He3).
  exists enriched, e0, e1, e3. repeat split; assumption.
Defined.

(** C10 at the sample portfolio: peer 03cc advertises an empty alias. *)
Lemma missing_alias_sample :
  exists enriched e,
    completion (addNodeAliases Sample.connected Sample.nodeInfo Sample.sanitize
                  Sample.portfolio) = Normal enriched
    /\ enriched !! 3%nat = Some e
    /\ e = spread Sample.saturated "Unknown" None
    /\ Enriched.remote_alias e = "Unknown"
    /\ Enriched.remote_alias e <> "Unknown (Error retrieving)"
    /\ Enriched._error e = None.
Proof.
  apply (missing_alias_is_Unknown Sample.connected Sample.nodeInfo Sample.sanitize
           Sample.portfolio tt (Some {| alias := Some "" |}) 3 Sample.saturated).
  - reflexivity.
  - reflexivity.
  - right. reflexivity.
  - reflexivity.
Defined.

(** C7 at the intent of type 'bogus' over the sample portfolio. *)
Lemma unknown_intent_sample :
  exists issued,
    handleQuery (Sample.always Sample.connected)
      (fun _ => Normal (ChannelArray Sample.portfolio))
      Sample.nodeInfo Sample.sanitize
      Sample.listView Sample.healthView Sample.liquidityView
      defaultHealthCriteria Sample.bogus
    = (Resolved unknown_result, issued)
    /\ List.filter is_formatter_call issued = [].
Proof.
  apply (unknown_intent_guidance (Sample.always Sample.connected)
           (fun _ => Normal (ChannelArray Sample.portfolio))
           Sample.nodeInfo Sample.sanitize
           Sample.listView Sample.healthView Sample.liquidityView
           defaultHealthCriteria Sample.bogus Sample.portfolio).
  - discriminate.
  - discriminate.
  - discriminate.
  - reflexivity.
Defined.

(** C8 at a response without channel data. *)
Lemma no_channel_data_sample :
  getChannelData (Sample.always Sample.connected) (fun _ => Normal NoData)
    Sample.nodeInfo Sample.sanitize defaultHealthCriteria
  = (Normal {| channels := []; summary := empty_summary |}, [GetLnd; GetChannels]).
Proof.
  apply (no_channel_data_is_empty_set (Sample.always Sample.connected)
           (fun _ => Normal NoData)
           Sample.nodeInfo Sample.sanitize
           Sample.listView Sample.healthView Sample.liquidityView
           defaultHealthCriteria tt NoData).
  - reflexivity.
  - reflexivity.
  - left. reflexivity.
Defined.

(** ** Further properties of the summary *)

(** The totals and the activity counters, for the empty list as well. *)
Lemma summary_totals (criteria : HealthCriteria) (channels : list EnrichedChannel) :
  totalCapacity (calculateChannelSummary criteria channels)
  = fold_left (fun sum c => (sum + Enriched.capacity c)%float) channels 0%float
  /\ totalLocalBalance (calculateChannelSummary criteria channels)
     = fold_left (fun sum c => (sum + Enriched.local_balance c)%float) channels 0%float
  /\ totalRemoteBalance (calculateChannelSummary criteria channels)
     = fold_left (fun sum c => (sum + Enriched.remote_balance c)%float) channels 0%float
  /\ activeChannels (calculateChannelSummary criteria channels)
     = length (List.filter (fun c => Enriched.active c) channels)
  /\ inactiveChannels (calculateChannelSummary criteria channels)
     = length (List.filter (fun c => negb (Enriched.active c)) channels).
Proof.
  unfold calculateChannelSummary.
  destruct channels as [|c l]; [repeat split|].
  cbn [length Nat.eqb].
  destruct (fold_left imbalance_step (c :: l) (None, 0%float)) as [m h].
  repeat split.
Qed.

Lemma averageCapacity_nonempty (criteria : HealthCriteria)
  (channels : list EnrichedChannel) :
  channels <> [] ->
  averageCapacity (calculateChannelSummary criteria channels)
  = (fold_left (fun sum c => (sum + Enriched.capacity c)%float) channels 0%float
     / length_number (length channels))%float.
Proof.
  intros Hne. unfold calculateChannelSummary.
  destruct channels as [|c l]; [contradiction|].
  cbn [length Nat.eqb].
  destruct (fold_left imbalance_step (c :: l) (None, 0%float)) as [m h].
  reflexivity.
Qed.

Lemma filter_length_mono {A : Type} (f g : A -> bool) (l : list A) :
  (forall x, f x = true -> g x = true) ->
  (length (List.filter f l) <= length (List.filter g l))%nat.
Proof.
  intros Himp. induction l as [|x l IH]; [reflexivity|].
  simpl. destruct (f x) eqn:Ef.
  - rewrite (Himp x Ef). simpl. lia.
  - destruct (g x); simpl; lia.
Qed.

Lemma filter_length_negb {A : Type} (f : A -> bool) (l : list A) :
  (length (List.filter f l) + length (List.filter (fun x => negb (f x)) l)
   = length l)%nat.
Proof.
  induction l as [|x l IH]; [reflexivity|].
  simpl. destruct (f x); simpl; lia.
Qed.

(** X1: the counters of a summary are consistent: the active and the
    inactive channels add up to all channels, every inactive channel is
    counted unhealthy, and so no more channels are healthy than are active. *)
Theorem summary_counters_consistent (criteria : HealthCriteria)
  (channels : list EnrichedChannel) :
  (activeChannels (calculateChannelSummary criteria channels)
   + inactiveChannels (calculateChannelSummary criteria channels)
   = length channels)%nat
  /\ (inactiveChannels (calculateChannelSummary criteria channels)
      <= unhealthyChannels (calculateChannelSummary criteria channels))%nat
  /\ (healthyChannels (calculateChannelSummary criteria channels)
      <= activeChannels (calculateChannelSummary criteria channels))%nat.
Proof.
  destruct (summary_totals criteria channels) as (_ & _ & _ & Hact & Hinact).
  rewrite Hact, Hinact, healthyChannels_filter, unhealthyChannels_filter.
  pose proof (filter_length_negb (fun c => Enriched.active c) channels) as Hsplit.
  assert (Hle : (length (List.filter (fun c => negb (Enriched.active c)) channels)
                 <= length (List.filter (unhealthy_filter criteria) channels))%nat).
  { apply filter_length_mono. intros c Hc. unfold unhealthy_filter. now rewrite Hc. }
  lia.
Qed.

(** A step of the search commutes with any function on the entries that
    keeps the raw channel fields. *)
Lemma imbalance_step_enrichment (f : EnrichedChannel -> EnrichedChannel)
  (st : option EnrichedChannel * float) (c : EnrichedChannel) :
  (forall e, channel_of (f e) = channel_of e) ->
  imbalance_step (option_map f (fst st), snd st) (f c)
  = (option_map f (fst (imbalance_step st c)), snd (imbalance_step st c)).
Proof.
  intros Hf. unfold imbalance_step. cbn [fst snd].
  pose proof (f_equal capacity (Hf c)) as Hcap.
  pose proof (f_equal local_balance (Hf c)) as Hloc.
  cbn [channel_of capacity local_balance] in Hcap, Hloc. rewrite Hcap, Hloc.
  destruct (js_gt (Enriched.capacity c) 0); [|reflexivity].
  now destruct (js_gt _ (snd st)).
Qed.

Lemma imbalance_fold_enrichment (f : EnrichedChannel -> EnrichedChannel)
  (l : list EnrichedChannel) (st : option EnrichedChannel * float) :
  (forall e, channel_of (f e) = channel_of e) ->
  fold_left imbalance_step (List.map f l) (option_map f (fst st), snd st)
  = (option_map f (fst (fold_left imbalance_step l st)),
     snd (fold_left imbalance_step l st)).
Proof.
  intros Hf. revert st. induction l as [|c l IH]; intros st; [reflexivity|].
  cbn [List.map fold_left]. rewrite imbalance_step_enrichment by assumption.
  apply IH.
Qed.

Lemma filter_length_map {A B : Type} (f : A -> B) (p : B -> bool) (q : A -> bool)
  (l : list A) :
  (forall x, p (f x) = q x) ->
  length (List.filter p (List.map f l)) = length (List.filter q l).
Proof.
  intros Hpq. induction l as [|x l IH]; [reflexivity|].
  simpl. rewrite Hpq. destruct (q x); simpl; now rewrite IH.
Qed.

(** A running total over a list whose entries are passed through a function
    that keeps the amount. *)
Lemma total_map {A : Type} (f : A -> A) (amount : A -> float) (l : list A)
  (start : float) :
  (forall x, amount (f x) = amount x) ->
  fold_left (fun sum x => (sum + amount x)%float) (List.map f l) start
  = fold_left (fun sum x => (sum + amount x)%float) l start.
Proof.
  intros Hf. revert start. induction l as [|x l IH]; intros start; [reflexivity|].
  cbn [List.map fold_left]. now rewrite Hf, IH.
Qed.

(** The figures of a summary written with running totals and filters. *)
Lemma summary_figures (criteria : HealthCriteria) (channels : list EnrichedChannel) :
  figures (calculateChannelSummary criteria channels)
  = (fold_left (fun sum c => (sum + Enriched.capacity c)%float) channels 0%float,
     fold_left (fun sum c => (sum + Enriched.local_balance c)%float) channels 0%float,
     fold_left (fun sum c => (sum + Enriched.remote_balance c)%float) channels 0%float,
     length (List.filter (fun c => Enriched.active c) channels),
     length (List.filter (fun c => negb (Enriched.active c)) channels),
     match channels with
     | [] => 0%float
     | _ =>
         (fold_left (fun sum c => (sum + Enriched.capacity c)%float) channels 0%float
          / length_number (length channels))%float
     end,
     (length channels - length (List.filter (unhealthy_filter criteria) channels))%nat,
     length (List.filter (unhealthy_filter criteria) channels)).
Proof.
  unfold figures.
  destruct (summary_totals criteria channels) as (-> & -> & -> & -> & ->).
  rewrite healthyChannels_filter, unhealthyChannels_filter.
  destruct channels as [|c l]; [reflexivity|].
  now rewrite averageCapacity_nonempty by discriminate.
Qed.

(** The summary of a list whose entries are passed through a function that
    keeps the raw channel fields. *)
Lemma summary_enrichment (criteria : HealthCriteria)
  (f : EnrichedChannel -> EnrichedChannel) (l : list EnrichedChannel) :
  (forall e, channel_of (f e) = channel_of e) ->
  figures (calculateChannelSummary criteria (List.map f l))
  = figures (calculateChannelSummary criteria l)
  /\ mostImbalancedChannel (calculateChannelSummary criteria (List.map f l))
     = option_map f (mostImbalancedChannel (calculateChannelSummary criteria l)).
Proof.
  intros Hf.
  assert (Hcap : forall e, Enriched.capacity (f e) = Enriched.capacity e)
    by (intros e; exact (f_equal capacity (Hf e))).
  assert (Hloc : forall e, Enriched.local_balance (f e) = Enriched.local_balance e)
    by (intros e; exact (f_equal local_balance (Hf e))).
  assert (Hrem : forall e, Enriched.remote_balance (f e) = Enriched.remote_balance e)
    by (intros e; exact (f_equal remote_balance (Hf e))).
  assert (Hact : forall e, Enriched.active (f e) = Enriched.active e)
    by (intros e; exact (f_equal active (Hf e))).
  split.
  - rewrite !summary_figures, length_map.
    rewrite (total_map f Enriched.capacity l 0 Hcap).
    rewrite (total_map f Enriched.local_balance l 0 Hloc).
    rewrite (total_map f Enriched.remote_balance l 0 Hrem).
    rewrite (filter_length_map f (fun c => Enriched.active c)
               (fun c => Enriched.active c)) by exact Hact.
    rewrite (filter_length_map f (fun c => negb (Enriched.active c))
               (fun c => negb (Enriched.active c)))
      by (intros e; now rewrite Hact).
    rewrite (filter_length_map f (unhealthy_filter criteria)
               (unhealthy_filter criteria))
      by (intros e; unfold unhealthy_filter; now rewrite Hact, Hloc, Hcap).
    now destruct l.
  - rewrite !mostImbalancedChannel_fold.
    pose proof (imbalance_fold_enrichment f l (None, 0%float) Hf) as Hfold.
    cbn [fst snd option_map] in Hfold. now rewrite Hfold.
Qed.

(** X4: the summary reads only the raw channel fields: two enriched lists
    over the same channels, whatever their aliases and error annotations,
    have the same totals and counters, and their most imbalanced channels
    are the same raw channel. *)
Theorem summary_ignores_enrichment (criteria : HealthCriteria)
  (l1 l2 : list EnrichedChannel) :
  List.map channel_of l1 = List.map channel_of l2 ->
  figures (calculateChannelSummary criteria l1)
  = figures (calculateChannelSummary criteria l2)
  /\ option_map channel_of (mostImbalancedChannel (calculateChannelSummary criteria l1))
     = option_map channel_of (mostImbalancedChannel (calculateChannelSummary criteria l2)).
Proof.
  intros Hraw.
  set (blank := fun e : EnrichedChannel => spread (channel_of e) "" None).
  assert (Hblank : forall e, channel_of (blank e) = channel_of e) by reflexivity.
  assert (Hsame : List.map blank l1 = List.map blank l2).
  { unfold blank.
    rewrite <- (List.map_map channel_of (fun c => spread c "" None) l1).
    rewrite <- (List.map_map channel_of (fun c => spread c "" None) l2).
    now rewrite Hraw. }
  destruct (summary_enrichment criteria blank l1 Hblank) as [Hf1 Hm1].
  destruct (summary_enrichment criteria blank l2 Hblank) as [Hf2 Hm2].
  split.
  - now rewrite <- Hf1, <- Hf2, Hsame.
  - assert (Hproj : forall o : option EnrichedChannel,
              option_map channel_of (option_map blank o) = option_map channel_of o)
      by (intros [e|]; reflexivity).
    rewrite <- (Hproj (mostImbalancedChannel (calculateChannelSummary criteria l1))).
    rewrite <- (Hproj (mostImbalancedChannel (calculateChannelSummary criteria l2))).
    now rewrite <- Hm1, <- Hm2, Hsame.
Qed.

Lemma filter_length_Permutation {A : Type} (f : A -> bool) (l1 l2 : list A) :
  l1 ≡ₚ l2 -> length (List.filter f l1) = length (List.filter f l2).
Proof.
  intros Hperm. induction Hperm as [|x l l' _ IH|x y l|l l' l'' _ IH1 _ IH2].
  - reflexivity.
  - simpl. destruct (f x); simpl; now rewrite IH.
  - simpl. destruct (f x), (f y); reflexivity.
  - now rewrite IH1.
Qed.

(** X5: the four counters of a summary do not depend on the order of the
    channels.  (The totals do: they are floating-point sums taken in input
    order.) *)
Theorem counters_order_independent (criteria : HealthCriteria)
  (l1 l2 : list EnrichedChannel) :
  l1 ≡ₚ l2 ->
  counters (calculateChannelSummary criteria l1)
  = counters (calculateChannelSummary criteria l2).
Proof.
  intros Hperm. unfold counters.
  destruct (summary_totals criteria l1) as (_ & _ & _ & -> & ->).
  destruct (summary_totals criteria l2) as (_ & _ & _ & -> & ->).
  rewrite !healthyChannels_filter, !unhealthyChannels_filter.
  rewrite (filter_length_Permutation (fun c => Enriched.active c) l1 l2 Hperm).
  rewrite (filter_length_Permutation (fun c => negb (Enriched.active c)) l1 l2 Hperm).
  rewrite (filter_length_Permutation (unhealthy_filter criteria) l1 l2 Hperm).
  now rewrite (Permutation_length Hperm).
Qed.

(** ** Channels without capacity *)

(** A division by zero yields [NaN] for a zero or a [NaN], and the infinity
    of the sign of any other number. *)
Lemma div_by_zero (x : float) :
  Prim2SF (x / 0)%float
  = match Prim2SF x with
    | S754_nan | S754_zero _ => S754_nan
    | S754_infinity s | S754_finite s _ _ => S754_infinity s
    end.
Proof.
  rewrite div_spec. change (Prim2SF 0%float) with (S754_zero false).
  unfold SF64div, SFdiv.
  destruct (Prim2SF x) as [s|s| |s m e]; try reflexivity; now rewrite xorb_false_r.
Qed.

(** X7: a channel of capacity 0 never enters the search for the most
    imbalanced channel, and, whatever the criteria, is counted unhealthy
    exactly when it is inactive, or has a positive local balance and the
    maximum is below infinity, or has a negative local balance and the
    minimum is above minus infinity: 0/0 is [NaN], which is neither below the
    minimum nor above the maximum, and x/0 is an infinity.  So under a finite
    maximum a channel of capacity 0 whose local balance is not negative is
    unhealthy exactly when it is inactive or has a non-zero local balance. *)
Theorem zero_capacity_channel (criteria : HealthCriteria) (c : EnrichedChannel) :
  Enriched.capacity c = 0%float ->
  (forall st, imbalance_step st c = st)
  /\ (unhealthy_filter criteria c = true
      <-> Enriched.active c = false
          \/ (number_lt 0 (Enriched.local_balance c)
              /\ number_lt (maxLocalRatio criteria) infinity)
          \/ (number_lt (Enriched.local_balance c) 0
              /\ number_lt neg_infinity (minLocalRatio criteria)))
  /\ (number_lt (maxLocalRatio criteria) infinity ->
      ~ number_lt (Enriched.local_balance c) 0 ->
      (unhealthy_filter criteria c = true
       <-> Enriched.active c = false \/ number_lt 0 (Enriched.local_balance c))).
Proof.
  intros Hzero.
  assert (Hfilter : unhealthy_filter criteria c = true
            <-> Enriched.active c = false
                \/ (number_lt 0 (Enriched.local_balance c)
                    /\ number_lt (maxLocalRatio criteria) infinity)
                \/ (number_lt (Enriched.local_balance c) 0
                    /\ number_lt neg_infinity (minLocalRatio criteria))).
  { rewrite unhealthy_filter_spec. unfold Unhealthy, local_ratio, number_lt.
    rewrite Hzero, div_by_zero.
    change (Prim2SF 0%float) with (S754_zero false).
    change (Prim2SF infinity) with (S754_infinity false).
    change (Prim2SF neg_infinity) with (S754_infinity true).
    destruct (Enriched.active c); [|split; intros _; now left].
    destruct (Prim2SF (Enriched.local_balance c)) as [s|s| |s m e];
      try destruct s;
      destruct (Prim2SF (minLocalRatio criteria)) as [smin|smin| |smin mmin emin];
      try destruct smin;
      destruct (Prim2SF (maxLocalRatio criteria)) as [smax|smax| |smax mmax emax];
      try destruct smax;
      cbn [SFcompare]; intuition discriminate. }
  split; [|split].
  - intros st. unfold imbalance_step. rewrite Hzero. reflexivity.
  - exact Hfilter.
  - intros Hmax Hneg. rewrite Hfilter. tauto.
Qed.

(** ** The order of the lookups *)

Lemma JsMap_has_set (m : JsMap.t) (key value key' : string) :
  JsMap.has (JsMap.set m key value) key'
  = JsMap.has m key' || String.eqb key key'.
Proof.
  unfold JsMap.has. induction m as [|[k v] rest IH]; simpl.
  - now rewrite orb_false_r.
  - destruct (String.eqb_spec k key) as [->|Hk]; simpl.
    + destruct (String.eqb key key'); simpl; [reflexivity|].
      now rewrite orb_false_r.
    + rewrite IH. now rewrite orb_assoc.
Qed.

Lemma filter_filter_and {A : Type} (p q : A -> bool) (l : list A) :
  List.filter p (List.filter q l) = List.filter (fun x => q x && p x) l.
Proof.
  induction l as [|x l IH]; [reflexivity|].
  simpl. destruct (q x); simpl; [destruct (p x)|]; now rewrite IH.
Qed.

Lemma collect_fold_order (channels : list Channel) (m : JsMap.t) :
  JsMap.keys
    (fold_left
       (fun pubkeyMap channel =>
          if negb (JsMap.has pubkeyMap (remote_pubkey channel))
          then JsMap.set pubkeyMap (remote_pubkey channel) ""
          else pubkeyMap)
       channels m)
  = JsMap.keys m
    ++ List.filter (fun k => negb (JsMap.has m k))
         (first_occurrences (List.map remote_pubkey channels)).
Proof.
  revert m. induction channels as [|c rest IH]; intros m.
  - simpl. now rewrite app_nil_r.
  - cbn [fold_left List.map first_occurrences List.filter]. rewrite IH.
    rewrite filter_filter_and.
    destruct (JsMap.has m (remote_pubkey c)) eqn:Hhas; cbn [negb].
    + f_equal. apply filter_ext. intros k.
      destruct (String.eqb_spec k (remote_pubkey c)) as [->|Hk]; cbn [negb andb].
      * now rewrite Hhas.
      * reflexivity.
    + rewrite JsMap_keys_set, Hhas, <- app_assoc. cbn [app]. f_equal. f_equal.
      apply filter_ext. intros k. rewrite JsMap_has_set, negb_orb.
      rewrite (String.eqb_sym (remote_pubkey c) k). apply andb_comm.
Qed.

Lemma collect_pubkeys_order (channels : list Channel) :
  JsMap.keys (collect_pubkeys channels)
  = first_occurrences (List.map remote_pubkey channels).
Proof.
  unfold collect_pubkeys. rewrite collect_fold_order. cbn [JsMap.keys List.map app].
  generalize (first_occurrences (List.map remote_pubkey channels)).
  intros l. induction l as [|k l IH]; [reflexivity|].
  cbn [List.filter JsMap.has existsb negb]. now f_equal.
Qed.

(** ** Further properties of alias resolution and of the handler *)

Section Further.

Context {Lnd : Type}.
Variable getLnd : Completion Lnd.
Variable getNodeInfo : Lnd -> string -> Completion (option NodeInfo).
Variable sanitizeError : Error -> Error.

(** X9: when the handle is obtained, the node-info lookups are issued for
    the distinct public keys in the order in which they first occur in the
    channel list, after the single call for the handle. *)
Theorem lookups_in_order_of_first_occurrence (channels : list Channel) (lnd : Lnd) :
  getLnd = Normal lnd ->
  calls (addNodeAliases getLnd getNodeInfo sanitizeError channels)
  = GetLnd :: List.map GetNodeInfo
                (first_occurrences (List.map remote_pubkey channels))
  /\ node_info_lookups (calls (addNodeAliases getLnd getNodeInfo sanitizeError channels))
     = first_occurrences (List.map remote_pubkey channels).
Proof.
  intros Hlnd. rewrite addNodeAliases_run, Hlnd. cbn [calls snd].
  rewrite collect_pubkeys_order. split; [reflexivity|].
  change (node_info_lookups (GetLnd :: ?l)) with (node_info_lookups l).
  apply node_info_lookups_map.
Qed.

(** X10: channels of the same peer are enriched alike: they get the same
    alias and the same error annotation, on every path. *)
Theorem same_peer_same_enrichment (channels : list Channel) :
  exists enriched,
    completion (addNodeAliases getLnd getNodeInfo sanitizeError channels)
    = Normal enriched
    /\ forall (i j : nat) (ei ej : EnrichedChannel),
         enriched !! i = Some ei -> enriched !! j = Some ej ->
         Enriched.remote_pubkey ei = Enriched.remote_pubkey ej ->
         Enriched.remote_alias ei = Enriched.remote_alias ej
         /\ Enriched._error ei = Enriched._error ej.
Proof.
  rewrite addNodeAliases_run. cbn [completion fst]. eexists. split; [reflexivity|].
  intros i j ei ej Hi Hj Hpk.
  change (List.map ?f ?l) with (f <$> l) in Hi, Hj.
  rewrite list_lookup_fmap in Hi, Hj.
  destruct (channels !! i) as [ci|]; [|discriminate].
  destruct (channels !! j) as [cj|]; [|discriminate].
  cbn in Hi, Hj. injection Hi as <-. injection Hj as <-.
  unfold resolve_spec in *. destruct getLnd as [lnd|error]; cbn in *.
  - now rewrite Hpk.
  - split; reflexivity.
Qed.

(** X11: every enriched channel has a non-empty alias, and it carries an
    error annotation only together with the placeholder alias; the type of an
    annotation is always [alias_retrieval_failed]. *)
Theorem enriched_alias_well_formed (channels : list Channel) :
  exists enriched,
    completion (addNodeAliases getLnd getNodeInfo sanitizeError channels)
    = Normal enriched
    /\ Forall
         (fun e =>
            Enriched.remote_alias e <> ""
            /\ forall info, Enriched._error e = Some info ->
                 Enriched.remote_alias e = "Unknown (Error retrieving)"
                 /\ ErrorInfo.type info = "alias_retrieval_failed")
         enriched.
Proof.
  rewrite addNodeAliases_run. cbn [completion fst]. eexists. split; [reflexivity|].
  apply Forall_forall. intros e He. apply list_elem_of_In in He.
  apply in_map_iff in He as (c & <- & _).
  unfold resolve_spec, lookup_alias, lookup_error.
  destruct getLnd as [lnd|error]; cbn.
  - destruct (getNodeInfo lnd (remote_pubkey c)) as [nodeInfo|error]; cbn.
    + split; [|discriminate]. unfold or_else.
      destruct (optional_alias nodeInfo) as [s|]; [|discriminate].
      destruct (String.eqb_spec s ""); [discriminate|assumption].
    + split; [discriminate|]. intros info [= <-]. split; reflexivity.
  - split; [discriminate|]. intros info [= <-]. split; reflexivity.
Qed.

End Further.

Section Queries.

Context {Lnd : Type}.
Variable getLnd : nat -> Completion Lnd.
Variable getChannels : Lnd -> Completion ChannelsProperty.
Variable getNodeInfo : Lnd -> string -> Completion (option NodeInfo).
Variable sanitizeError : Error -> Error.
Variable formatChannelList : ChannelQueryResult -> string.
Variable formatChannelHealth : ChannelQueryResult -> string.
Variable formatChannelLiquidity : ChannelQueryResult -> string.
Variable healthCriteria : HealthCriteria.

(** The run of [handleQuery] once [getChannelData] is known. *)
Lemma handleQuery_known (intent : Intent.t) (data : ChannelQueryResult)
  (issued : list Call) :
  getChannelData getLnd getChannels getNodeInfo sanitizeError healthCriteria
  = (Normal data, issued) ->
  handleQuery getLnd getChannels getNodeInfo sanitizeError
    formatChannelList formatChannelHealth formatChannelLiquidity
    healthCriteria intent
  = if String.eqb (Intent.type intent) "channel_list" then
      (Resolved {| QueryResult.type := Some "channel_list";
                   QueryResult.text := Some (formatChannelList data);
                   QueryResult.response := formatChannelList data;
                   QueryResult.data := ChannelData data;
                   QueryResult.error := None |},
       issued ++ [FormatChannelList; FormatChannelList])
    else if String.eqb (Intent.type intent) "channel_health" then
      (Resolved {| QueryResult.type := Some "channel_health";
                   QueryResult.text := Some (formatChannelHealth data);
                   QueryResult.response := formatChannelHealth data;
                   QueryResult.data := ChannelData data;
                   QueryResult.error := None |},
       issued ++ [FormatChannelHealth; FormatChannelHealth])
    else if String.eqb (Intent.type intent) "channel_liquidity" then
      (Resolved {| QueryResult.type := Some "channel_liquidity";
                   QueryResult.text := Some (formatChannelLiquidity data);
                   QueryResult.response := formatChannelLiquidity data;
                   QueryResult.data := ChannelData data;
                   QueryResult.error := None |},
       issued ++ [FormatChannelLiquidity; FormatChannelLiquidity])
    else (Resolved unknown_result, issued).
Proof.
  intros Hdata. unfold handleQuery, handleQuery_body. rewrite Hdata.
  unfold bind at 1.
  destruct (String.eqb (Intent.type intent) "channel_list");
    [|destruct (String.eqb (Intent.type intent) "channel_health");
      [|destruct (String.eqb (Intent.type intent) "channel_liquidity")]];
    cbn; rewrite ?app_nil_r; reflexivity.
Qed.

Lemma handleQuery_failed (intent : Intent.t) (error : Error) (issued : list Call) :
  getChannelData getLnd getChannels getNodeInfo sanitizeError healthCriteria
  = (Throw error, issued) ->
  handleQuery getLnd getChannels getNodeInfo sanitizeError
    formatChannelList formatChannelHealth formatChannelLiquidity
    healthCriteria intent
  = (Resolved (error_result error), issued).
Proof.
  intros Hdata. unfold handleQuery, handleQuery_body. rewrite Hdata.
  cbn. now rewrite app_nil_r.
Qed.

(** The run of [fetchRawChannelData], call by call. *)
Lemma fetchRawChannelData_cases (handle : Completion Lnd) :
  fetchRawChannelData handle getChannels
  = match handle with
    | Throw error => (Throw error, [GetLnd])
    | Normal lnd =>
        match getChannels lnd with
        | Throw error => (Throw error, [GetLnd; GetChannels])
        | Normal property => (Normal (channels_or_empty property), [GetLnd; GetChannels])
        end
    end.
Proof.
  unfold fetchRawChannelData, bind, call, ret.
  destruct handle as [lnd|error]; [|reflexivity].
  destruct (getChannels lnd) as [[| |channels]|error]; reflexivity.
Qed.

(** The run of [getChannelData], call by call. *)
Lemma getChannelData_cases :
  getChannelData getLnd getChannels getNodeInfo sanitizeError healthCriteria
  = match fetchRawChannelData (getLnd 0) getChannels with
    | (Throw error, issued) => (Throw (sanitizeError error), issued)
    | (Normal raw, issued) =>
        (Normal {| channels :=
                     List.map (resolve_spec (getLnd 1) getNodeInfo sanitizeError) raw;
                   summary :=
                     calculateChannelSummary healthCriteria
                       (List.map (resolve_spec (getLnd 1) getNodeInfo sanitizeError)
                          raw) |},
         issued ++ enrichment_calls getLnd raw)
    end.
Proof.
  unfold getChannelData, enrichment_calls. rewrite fetchRawChannelData_cases.
  destruct (getLnd 0) as [lnd|error]; [|reflexivity].
  destruct (getChannels lnd) as [property|error]; [|reflexivity].
  unfold bind at 1. unfold enrichChannelsWithMetadata.
  destruct (channels_or_empty property) as [|c rest] eqn:Hraw.
  - reflexivity.
  - cbn [length Nat.eqb]. rewrite addNodeAliases_run, collect_pubkeys_order.
    destruct (getLnd 1); unfold bind, ret, try_catch; cbn [fst snd];
      now rewrite app_nil_r.
Qed.

Lemma filter_lookups_out (p : Call -> bool) (keys : list string) :
  (forall key, p (GetNodeInfo key) = false) ->
  List.filter p (List.map GetNodeInfo keys) = [].
Proof.
  intros Hp. induction keys as [|k rest IH]; [reflexivity|].
  simpl. now rewrite Hp.
Qed.

Lemma node_info_lookups_app (l1 l2 : list Call) :
  node_info_lookups (l1 ++ l2) = node_info_lookups l1 ++ node_info_lookups l2.
Proof. unfold node_info_lookups. apply flat_map_app. Qed.


Lemma enrichment_calls_lookups (raw : list Channel) :
  node_info_lookups (enrichment_calls getLnd raw)
  = match getLnd 1 with
    | Normal _ => first_occurrences (List.map remote_pubkey raw)
    | Throw _ => []
    end.
Proof.
  unfold enrichment_calls. destruct raw as [|c rest].
  - now destruct (getLnd 1).
  - destruct (getLnd 1); [|reflexivity].
    change (node_info_lookups (GetLnd :: ?l)) with (node_info_lookups l).
    apply node_info_lookups_map.
Qed.


(** X13: whatever the intent and the collaborators, the result of a query
    is well formed: its text is its response, its type is one of the five
    result types (for a known intent, the type of the intent), it carries an
    error exactly when its type is 'error', and its data are empty exactly
    when its type is 'unknown' or 'error'. *)
Theorem query_result_well_formed (intent : Intent.t) :
  exists result,
    fst (handleQuery getLnd getChannels getNodeInfo sanitizeError
           formatChannelList formatChannelHealth formatChannelLiquidity
           healthCriteria intent) = Resolved result
    /\ QueryResult.text result = Some (QueryResult.response result)
    /\ (exists type, QueryResult.type result = Some type /\ type ∈ result_types
          /\ (type = "unknown" \/ type = "error" \/ type = Intent.type intent)
          /\ (QueryResult.error result = None <-> type <> "error")
          /\ (QueryResult.data result = EmptyObject
              <-> type = "unknown" \/ type = "error")).
Proof.
  pose proof getChannelData_cases as Hdata.
  destruct (fetchRawChannelData (getLnd 0) getChannels) as [[raw|error] issued].
  - rewrite (handleQuery_known intent _ _ Hdata).
    unfold result_types.
    destruct (String.eqb_spec (Intent.type intent) "channel_list") as [->|_];
      [|destruct (String.eqb_spec (Intent.type intent) "channel_health") as [->|_];
        [|destruct (String.eqb_spec (Intent.type intent) "channel_liquidity")
            as [->|_]]];
      cbn [fst]; eexists; (split; [reflexivity|]); (split; [reflexivity|]);
      eexists; (split; [reflexivity|]);
      (split; [set_solver|]); (split; [tauto|]);
      (split; split; first [discriminate | reflexivity | tauto
                            | intros [H|H]; discriminate | idtac]).
    all: try (intros _; now left).
  - rewrite (handleQuery_failed intent _ _ Hdata).
    cbn [fst]. eexists. split; [reflexivity|]. split; [reflexivity|].
    exists "error". unfold result_types. split; [reflexivity|].
    split; [set_solver|]. split; [tauto|]. split; split.
    + discriminate.
    + intros H. now contradiction H.
    + intros _. now right.
    + reflexivity.
Qed.


(** X15: a query whose fetch succeeds does the same gateway work whatever
    its intent, an unknown one included: one call for the channels; a second
    call of [getLnd()] exactly when a channel was fetched; and, when that
    second call yields the handle, one node-info lookup per distinct peer of
    the fetched channels, in the order of first occurrence, and none when it
    throws. *)
Theorem every_intent_fetches_and_enriches (intent : Intent.t) (raw : list Channel) :
  completion (fetchRawChannelData (getLnd 0) getChannels) = Normal raw ->
  let issued :=
    snd (handleQuery getLnd getChannels getNodeInfo sanitizeError
           formatChannelList formatChannelHealth formatChannelLiquidity
           healthCriteria intent) in
  node_info_lookups issued
  = match getLnd 1%nat with
    | Normal _ => first_occurrences (List.map remote_pubkey raw)
    | Throw _ => []
    end
  /\ List.filter (fun c => match c with GetChannels => true | _ => false end) issued
     = [GetChannels]
  /\ List.filter (fun c => match c with GetLnd => true | _ => false end) issued
     = match raw with
       | [] => [GetLnd]
       | _ => [GetLnd; GetLnd]
       end.
Proof.
  intros Hfetch. cbv zeta. pose proof getChannelData_cases as Hdata.
  rewrite fetchRawChannelData_cases in Hfetch, Hdata.
  destruct (getLnd 0) as [lnd|e]; [|discriminate].
  destruct (getChannels lnd) as [property|e]; [|discriminate].
  cbn [completion fst] in Hfetch. injection Hfetch as Hraw. rewrite Hraw in Hdata.
  rewrite (handleQuery_known intent _ _ Hdata).
  assert (Hlookups : node_info_lookups
                       ([GetLnd; GetChannels] ++ enrichment_calls getLnd raw)
                     = match getLnd 1%nat with
                       | Normal _ => first_occurrences (List.map remote_pubkey raw)
                       | Throw _ => []
                       end).
  { rewrite node_info_lookups_app. apply enrichment_calls_lookups. }
  assert (Hchannels : List.filter
                        (fun c => match c with GetChannels => true | _ => false end)
                        ([GetLnd; GetChannels] ++ enrichment_calls getLnd raw)
                      = [GetChannels]).
  { unfold enrichment_calls. destruct raw as [|c rest]; [reflexivity|].
    destruct (getLnd 1); [|reflexivity].
    cbn [app List.filter]. f_equal. now apply filter_lookups_out. }
  assert (Hhandles : List.filter
                       (fun c => match c with GetLnd => true | _ => false end)
                       ([GetLnd; GetChannels] ++ enrichment_calls getLnd raw)
                     = match raw with
                       | [] => [GetLnd]
                       | _ => [GetLnd; GetLnd]
                       end).
  { unfold enrichment_calls. destruct raw as [|c rest]; [reflexivity|].
    destruct (getLnd 1); [|reflexivity].
    cbn [app List.filter]. do 2 f_equal. now apply filter_lookups_out. }
  destruct (String.eqb (Intent.type intent) "channel_list");
    [|destruct (String.eqb (Intent.type intent) "channel_health");
      [|destruct (String.eqb (Intent.type intent) "channel_liquidity")]];
    cbn [snd];
    first [ split; [|split]; assumption
          | rewrite node_info_lookups_app, Hlookups,
              List.filter_app, Hchannels, List.filter_app, Hhandles;
            split; [apply app_nil_r|split; [reflexivity|apply app_nil_r]] ].
Qed.

End Queries.


(** ** The configuration module: runs *)

Section ConfigRuns.

Import Config.

Context {FS : Type}.
Variable existsSync : FS -> string -> bool.
Variable mkdirSync : FS -> string -> Completion unit * FS.
Variable writeFileSync : FS -> string -> string -> Completion unit * FS.
Variable cwd : string.
Variable path_resolve : string -> string -> string.
Variable sanitizeErrorMessage : string -> string.

Lemma validateConfig_run (p : Process FS) :
  validateConfig existsSync p
  = (match validation_error existsSync p with
     | Some msg => Throw {| message := msg |}
     | None => Normal tt
     end, p).
Proof.
  unfold validateConfig, validation_error, lnd_files_error, lnc_error, port_error,
    lnd_port_error, cbind, getenv, exists_, when, cthrow, cret.
  repeat match goal with
         | |- context [if ?b then _ else _] => destruct b; cbn [negb andb orb]
         end;
    reflexivity.
Qed.

Lemma buildConfig_run (p : Process FS) :
  buildConfig (FS := FS) p = (Normal (config_of (env p)), p).
Proof. reflexivity. Qed.

Local Abbreviation setup :=
  (setupMockLndIfNeeded existsSync mkdirSync writeFileSync cwd path_resolve).
Local Abbreviation certPath := (mockCertPath cwd path_resolve).
Local Abbreviation macaroonPath := (mockMacaroonPath cwd path_resolve).

Lemma setup_outside_mock_mode (p : Process FS) :
  equals (env p !! "USE_MOCK_LND") "true" = false ->
  setup p = (Normal tt, p).
Proof.
  intros Hmock. unfold setupMockLndIfNeeded, cbind, getenv, when.
  now rewrite Hmock.
Qed.

(** What a run of the set-up in mock mode can do. *)
Lemma setup_in_mock_mode (p : Process FS) :
  equals (env p !! "USE_MOCK_LND") "true" = true ->
  (exists written,
      fs_log (snd (setup p)) = fs_log p ++ written
      /\ Forall (fun c => c ∈ [Mkdir (mockDir cwd path_resolve);
                               WriteFile certPath "MOCK TLS CERTIFICATE";
                               WriteFile macaroonPath "MOCK MACAROON"])
           written)
  /\ match fst (setup p) with
     | Normal _ =>
         env (snd (setup p))
         = <[ "LND_MACAROON_PATH" := macaroonPath ]>
             (<[ "LND_TLS_CERT_PATH" := certPath ]> (env p))
     | Throw _ => env (snd (setup p)) = env p
     end.
Proof.
  intros Hmock.
  unfold setupMockLndIfNeeded, cbind, getenv, when, exists_, mkdir, writeFile,
    setenv, cret.
  rewrite Hmock. cbn [fs env fs_log].
  repeat (match goal with
          | |- context [mkdirSync ?f ?x] =>
              destruct (mkdirSync f x) as [[[]|?] ?]
          | |- context [writeFileSync ?f ?x ?c] =>
              destruct (writeFileSync f x c) as [[[]|?] ?]
          | |- context [if negb ?b then _ else _] => destruct b
          end; cbn [negb fs env fs_log fst snd]);
    (split; [eexists; split;
             [rewrite <- ?app_assoc; try reflexivity;
              symmetry; apply app_nil_r
             |repeat first [apply List.Forall_nil
                           |apply List.Forall_cons; [set_solver|]]]
            |reflexivity]).
Qed.

Lemma getConfig_returns (p p' : Process FS) (config : Config) :
  getConfig existsSync mkdirSync writeFileSync cwd path_resolve
    sanitizeErrorMessage p = (Normal config, p') ->
  setup p = (Normal tt, p')
  /\ validation_error existsSync p' = None
  /\ config = config_of (env p').
Proof.
  unfold getConfig, ctry, cbind, cthrow.
  destruct (setup p) as [[[]|e] p1]; [|discriminate].
  rewrite validateConfig_run.
  destruct (validation_error existsSync p1) as [msg|] eqn:Hvalid; [discriminate|].
  rewrite buildConfig_run. intros [= <- <-]. repeat split. exact Hvalid.
Qed.

(** The environment [validateConfig] and the construction read, for the
    variables the set-up does not write. *)
Lemma getConfig_env (p p' : Process FS) (name : string) :
  setup p = (Normal tt, p') ->
  name <> "LND_TLS_CERT_PATH" -> name <> "LND_MACAROON_PATH" ->
  env p' !! name = env p !! name.
Proof.
  intros Hsetup Hcert Hmacaroon.
  destruct (equals (env p !! "USE_MOCK_LND") "true") eqn:Hmock.
  - pose proof (setup_in_mock_mode p Hmock) as [_ Henv].
    rewrite Hsetup in Henv. cbn [fst snd] in Henv. rewrite Henv.
    rewrite !lookup_insert_ne by congruence. reflexivity.
  - rewrite (setup_outside_mock_mode p Hmock) in Hsetup.
    now injection Hsetup as <-.
Qed.

Lemma valid_port_inv (value : option string) (fallback : string) :
  invalid_port (parseInt (or_else value "")) = false ->
  exists s n, value = Some s /\ or_else value fallback = s
    /\ parseInt s = Some n /\ (1 <= n <= 65535)%Z.
Proof.
  unfold or_else. destruct value as [s|]; [|discriminate].
  destruct (String.eqb_spec s "") as [->|Hs]; [discriminate|].
  unfold invalid_port. destruct (parseInt s) as [n|] eqn:Hparse; [|discriminate].
  intros H. apply orb_false_iff in H as [H1 H2].
  apply Z.leb_gt in H1. apply Z.ltb_ge in H2.
  exists s, n. repeat split; [exact Hparse|lia|lia].
Qed.

End ConfigRuns.

(** ** Properties of the configuration module *)

Section ConfigProperties.

Context {FS : Type}.
Variable existsSync : FS -> string -> bool.
Variable mkdirSync : FS -> string -> Completion unit * FS.
Variable writeFileSync : FS -> string -> string -> Completion unit * FS.
Variable cwd : string.
Variable path_resolve : string -> string -> string.
Variable sanitizeErrorMessage : string -> string.

Lemma validation_passes (p : Config.Process FS) :
  Config.validation_error existsSync p = None ->
  Config.lnd_files_error existsSync p = None
  /\ Config.lnc_error p = None
  /\ Config.port_error p = None
  /\ Config.lnd_port_error p = None.
Proof.
  unfold Config.validation_error.
  destruct (Config.lnd_files_error existsSync p); [discriminate|].
  destruct (Config.lnc_error p); [discriminate|].
  destruct (Config.port_error p); [discriminate|].
  intros H. repeat split. exact H.
Qed.

(** The server port of a process that passes the validation. *)
Lemma validated_port (p : Config.Process FS) (fallback : string) :
  Config.validation_error existsSync p = None ->
  exists s n,
    Config.env p !! "PORT" = Some s
    /\ or_else (Config.env p !! "PORT") fallback = s
    /\ Config.parseInt s = Some n /\ (1 <= n <= 65535)%Z.
Proof.
  intros Hvalid. apply validation_passes in Hvalid as (_ & _ & Hport & _).
  unfold Config.port_error in Hport.
  destruct (Config.invalid_port
              (Config.parseInt (or_else (Config.env p !! "PORT") ""))) eqn:E;
    [discriminate|].
  now apply valid_port_inv.
Qed.

(** X16: a configuration is only returned for a server port that is set
    and parses to an integer between 1 and 65535, which is the port of the
    configuration: the fallback '3000' of the construction is never used. *)
Theorem getConfig_port_in_range (p p' : Config.Process FS) (config : Config.Config) :
  Config.getConfig existsSync mkdirSync writeFileSync cwd path_resolve
    sanitizeErrorMessage p = (Normal config, p') ->
  exists s n,
    Config.env p !! "PORT" = Some s
    /\ s <> ""
    /\ Config.parseInt s = Some n
    /\ (1 <= n <= 65535)%Z
    /\ Config.Server.port (Config.server config) = Some n.
Proof.
  intros Hrun. apply getConfig_returns in Hrun as (Hsetup & Hvalid & ->).
  destruct (validated_port p' "3000" Hvalid) as (s & n & Hs & Hor & Hparse & Hn).
  exists s, n.
  rewrite <- (getConfig_env existsSync mkdirSync writeFileSync cwd path_resolve sanitizeErrorMessage p p' "PORT" Hsetup) by discriminate.
  repeat split; try assumption; try lia.
  - intros ->. discriminate.
  - cbn [Config.config_of Config.server Config.Server.port]. now rewrite Hor.
Qed.

(** X17: without a server port (not set, or empty) [getConfig] throws,
    whatever else is set; outside mock mode and without a connection type to
    check, the error is the sanitized 'Invalid server port: undefined' and the
    process is left as it was. *)
Theorem missing_port_rejected (p : Config.Process FS) :
  or_else (Config.env p !! "PORT") "" = "" ->
  (exists error p',
      Config.getConfig existsSync mkdirSync writeFileSync cwd path_resolve
        sanitizeErrorMessage p = (Throw error, p'))
  /\ (Config.equals (Config.env p !! "USE_MOCK_LND") "true" = false ->
      Config.env p !! "CONNECTION_TYPE" = None ->
      Config.env p !! "PORT" = None ->
      Config.getConfig existsSync mkdirSync writeFileSync cwd path_resolve
        sanitizeErrorMessage p
      = (Throw {| message := sanitizeErrorMessage "Invalid server port: undefined" |},
         p)).
Proof.
  intros Hport. split.
  - destruct (Config.getConfig existsSync mkdirSync writeFileSync cwd path_resolve
                sanitizeErrorMessage p) as [[config|error] p'] eqn:Hrun;
      [|now exists error, p'].
    exfalso. apply getConfig_returns in Hrun as (Hsetup & Hvalid & _).
    destruct (validated_port p' "" Hvalid) as (s & n & Hs & Hor & Hparse & Hn).
    rewrite (getConfig_env existsSync mkdirSync writeFileSync cwd path_resolve sanitizeErrorMessage p p' "PORT" Hsetup) in Hs, Hor by discriminate.
    rewrite Hport in Hor. subst s. discriminate.
  - intros Hmock Htype Hunset.
    unfold Config.getConfig, Config.ctry, Config.cbind.
    rewrite setup_outside_mock_mode by assumption.
    rewrite validateConfig_run.
    unfold Config.validation_error, Config.lnd_files_error, Config.lnc_error,
      Config.port_error.
    rewrite Hmock, Htype, Hunset. reflexivity.
Qed.

(** X18: a returned configuration has a Lightning Node Connect section
    exactly when its connection type is 'lnc', and then the variable
    CONNECTION_TYPE is 'lnc' and the connection string of the section is set
    and not empty. *)
Theorem lnc_section_iff_lnc (p p' : Config.Process FS) (config : Config.Config) :
  Config.getConfig existsSync mkdirSync writeFileSync cwd path_resolve
    sanitizeErrorMessage p = (Normal config, p') ->
  (Config.Node.lnc (Config.node config) = None
   <-> Config.Node.connectionType (Config.node config) <> "lnc")
  /\ forall section, Config.Node.lnc (Config.node config) = Some section ->
       Config.env p !! "CONNECTION_TYPE" = Some "lnc"
       /\ exists s, Config.Lnc.connectionString section = Some s /\ s <> "".
Proof.
  intros Hrun. apply getConfig_returns in Hrun as (Hsetup & Hvalid & ->).
  apply validation_passes in Hvalid as (_ & Hlnc & _ & _).
  cbn [Config.config_of Config.node Config.Node.lnc Config.Node.connectionType].
  split.
  - destruct (String.eqb_spec
                (or_else (Config.env p' !! "CONNECTION_TYPE")
                   (if Config.equals (Config.env p' !! "USE_MOCK_LND") "true"
                    then "mock" else "lnd-direct")) "lnc") as [Heq|Hne].
    + split; [discriminate|]. intros H. now contradiction H.
    + split; [intros _; exact Hne|reflexivity].
  - intros section Hsection.
    destruct (String.eqb_spec
                (or_else (Config.env p' !! "CONNECTION_TYPE")
                   (if Config.equals (Config.env p' !! "USE_MOCK_LND") "true"
                    then "mock" else "lnd-direct")) "lnc") as [Heq|Hne];
      [|discriminate].
    injection Hsection as <-. cbn [Config.Lnc.connectionString].
    assert (Htype : Config.env p' !! "CONNECTION_TYPE" = Some "lnc").
    { unfold or_else in Heq.
      destruct (Config.env p' !! "CONNECTION_TYPE") as [t|].
      - destruct (String.eqb t ""); [|now subst].
        destruct (Config.equals _ "true"); discriminate.
      - destruct (Config.equals _ "true"); discriminate. }
    split.
    + now rewrite <- (getConfig_env existsSync mkdirSync writeFileSync cwd path_resolve sanitizeErrorMessage p p' "CONNECTION_TYPE" Hsetup)
        by discriminate.
    + unfold Config.lnc_error in Hlnc. rewrite Htype in Hlnc.
      cbn [Config.equals String.eqb Ascii.eqb Bool.eqb andb] in Hlnc.
      destruct (Config.env p' !! "LNC_CONNECTION_STRING") as [str|];
        cbn [Config.truthy negb] in Hlnc; [|discriminate].
      destruct (String.eqb str "") eqn:Hempty; [discriminate|].
      exists str. split; [reflexivity|]. intros ->. discriminate.
Qed.

(** X19: outside mock mode, a configuration for the connection type
    'lnd-direct' is only returned when the certificate and the macaroon paths
    are set, not empty, and name files that exist; the process is left as it
    was. *)
Theorem lnd_direct_files_exist (p p' : Config.Process FS) (config : Config.Config) :
  Config.getConfig existsSync mkdirSync writeFileSync cwd path_resolve
    sanitizeErrorMessage p = (Normal config, p') ->
  Config.equals (Config.env p !! "USE_MOCK_LND") "true" = false ->
  Config.env p !! "CONNECTION_TYPE" = Some "lnd-direct" ->
  p' = p
  /\ Config.Node.connectionType (Config.node config) = "lnd-direct"
  /\ exists cert macaroon,
       Config.Lnd.tlsCertPath (Config.Node.lnd (Config.node config)) = Some cert
       /\ Config.Lnd.macaroonPath (Config.Node.lnd (Config.node config)) = Some macaroon
       /\ cert <> "" /\ macaroon <> ""
       /\ existsSync (Config.fs p) cert = true
       /\ existsSync (Config.fs p) macaroon = true.
Proof.
  intros Hrun Hmock Htype. apply getConfig_returns in Hrun as (Hsetup & Hvalid & ->).
  rewrite setup_outside_mock_mode in Hsetup by assumption.
  injection Hsetup as <-.
  apply validation_passes in Hvalid as (Hfiles & _ & _ & _).
  split; [reflexivity|].
  cbn [Config.config_of Config.node Config.Node.connectionType Config.Node.lnd
       Config.Lnd.tlsCertPath Config.Lnd.macaroonPath].
  rewrite Htype. split; [reflexivity|].
  unfold Config.lnd_files_error in Hfiles. rewrite Hmock, Htype in Hfiles.
  cbn [Config.equals String.eqb Ascii.eqb Bool.eqb negb andb] in Hfiles.
  destruct (Config.env p !! "LND_TLS_CERT_PATH") as [cert|];
    [|discriminate].
  destruct (Config.env p !! "LND_MACAROON_PATH") as [macaroon|];
    [|cbn in Hfiles; now rewrite orb_true_r in Hfiles].
  cbn [Config.truthy Config.interpolate] in Hfiles.
  destruct (String.eqb cert "") eqn:Hcert; [discriminate|].
  destruct (String.eqb macaroon "") eqn:Hmacaroon; [discriminate|].
  cbn [negb orb] in Hfiles.
  destruct (existsSync (Config.fs p) cert) eqn:Ecert; [|discriminate].
  destruct (existsSync (Config.fs p) macaroon) eqn:Emacaroon; [|discriminate].
  exists cert, macaroon.
  split; [reflexivity|]. split; [reflexivity|].
  split; [intros ->; discriminate|]. split; [intros ->; discriminate|].
  split; assumption.
Qed.

(** X20: outside mock mode the file system is consulted only for the
    connection type 'lnd-direct': for any other value of CONNECTION_TYPE, or
    none, the outcome of [getConfig] is the same on every file system, and
    when CONNECTION_TYPE is not set a returned configuration still has the
    connection type 'lnd-direct'. *)
Theorem files_unchecked_without_lnd_direct (p : Config.Process FS) (other : FS) :
  Config.equals (Config.env p !! "USE_MOCK_LND") "true" = false ->
  Config.equals (Config.env p !! "CONNECTION_TYPE") "lnd-direct" = false ->
  fst (Config.getConfig existsSync mkdirSync writeFileSync cwd path_resolve
         sanitizeErrorMessage p)
  = fst (Config.getConfig existsSync mkdirSync writeFileSync cwd path_resolve
           sanitizeErrorMessage
           {| Config.env := Config.env p; Config.fs := other;
              Config.fs_log := Config.fs_log p |})
  /\ (Config.env p !! "CONNECTION_TYPE" = None ->
      forall config,
        fst (Config.getConfig existsSync mkdirSync writeFileSync cwd path_resolve
               sanitizeErrorMessage p) = Normal config ->
        Config.Node.connectionType (Config.node config) = "lnd-direct").
Proof.
  intros Hmock Htype.
  assert (Hrun : forall q : Config.Process FS,
            Config.env q = Config.env p ->
            Config.getConfig existsSync mkdirSync writeFileSync cwd path_resolve
              sanitizeErrorMessage q
            = (match Config.validation_error existsSync q with
               | Some msg => Throw {| message := sanitizeErrorMessage msg |}
               | None => Normal (Config.config_of (Config.env q))
               end, q)).
  { intros q Hq. unfold Config.getConfig, Config.ctry, Config.cbind.
    rewrite setup_outside_mock_mode by (now rewrite Hq).
    rewrite validateConfig_run.
    now destruct (Config.validation_error existsSync q). }
  assert (Hsame : forall q : Config.Process FS,
            Config.env q = Config.env p ->
            Config.validation_error existsSync q
            = Config.validation_error existsSync p).
  { intros q Hq.
    unfold Config.validation_error, Config.lnd_files_error, Config.lnc_error,
      Config.port_error, Config.lnd_port_error.
    rewrite Hq, Hmock, Htype. reflexivity. }
  split.
  - rewrite (Hrun p eq_refl).
    rewrite (Hrun {| Config.env := Config.env p; Config.fs := other;
                     Config.fs_log := Config.fs_log p |} eq_refl).
    cbn [fst Config.env].
    now rewrite (Hsame {| Config.env := Config.env p; Config.fs := other;
                          Config.fs_log := Config.fs_log p |} eq_refl).
  - intros Hunset config. rewrite (Hrun p eq_refl). cbn [fst].
    destruct (Config.validation_error existsSync p); [discriminate|].
    intros [= <-].
    cbn [Config.config_of Config.node Config.Node.connectionType].
    rewrite Hunset, Hmock. reflexivity.
Qed.

(** X21: outside mock mode [getConfig] changes nothing: whether it returns
    or throws, the environment and the file system are as before and no
    directory or file was created. *)
Theorem getConfig_inert_outside_mock_mode (p : Config.Process FS) :
  Config.equals (Config.env p !! "USE_MOCK_LND") "true" = false ->
  snd (Config.getConfig existsSync mkdirSync writeFileSync cwd path_resolve
         sanitizeErrorMessage p) = p.
Proof.
  intros Hmock. unfold Config.getConfig, Config.ctry, Config.cbind.
  rewrite setup_outside_mock_mode by assumption.
  rewrite validateConfig_run.
  now destruct (Config.validation_error existsSync p).
Qed.

(** X22: in mock mode, when the mock directory and the two mock files
    exist, the set-up writes nothing: the file system is untouched and only
    the two path variables are set, to the mock files. *)
Theorem mock_setup_with_files_present (p : Config.Process FS) :
  Config.equals (Config.env p !! "USE_MOCK_LND") "true" = true ->
  existsSync (Config.fs p) (Config.mockDir cwd path_resolve) = true ->
  existsSync (Config.fs p) (Config.mockCertPath cwd path_resolve) = true ->
  existsSync (Config.fs p) (Config.mockMacaroonPath cwd path_resolve) = true ->
  Config.setupMockLndIfNeeded existsSync mkdirSync writeFileSync cwd path_resolve p
  = (Normal tt,
     {| Config.env :=
          <[ "LND_MACAROON_PATH" := Config.mockMacaroonPath cwd path_resolve ]>
            (<[ "LND_TLS_CERT_PATH" := Config.mockCertPath cwd path_resolve ]>
               (Config.env p));
        Config.fs := Config.fs p;
        Config.fs_log := Config.fs_log p |}).
Proof.
  intros Hmock Hdir Hcert Hmacaroon.
  unfold Config.setupMockLndIfNeeded, Config.cbind, Config.getenv, Config.when,
    Config.exists_, Config.setenv, Config.cret.
  rewrite Hmock, Hdir. cbn [negb Config.fs]. rewrite Hcert. cbn [negb Config.fs].
  rewrite Hmacaroon. reflexivity.
Qed.

(** X23: a configuration returned in mock mode names the mock certificate
    and the mock macaroon, has the connection type given by CONNECTION_TYPE
    or else 'mock', and the only file system calls made create the mock
    directory and the two mock files. *)
Theorem mock_configuration (p p' : Config.Process FS) (config : Config.Config) :
  Config.getConfig existsSync mkdirSync writeFileSync cwd path_resolve
    sanitizeErrorMessage p = (Normal config, p') ->
  Config.equals (Config.env p !! "USE_MOCK_LND") "true" = true ->
  Config.Lnd.tlsCertPath (Config.Node.lnd (Config.node config))
  = Some (Config.mockCertPath cwd path_resolve)
  /\ Config.Lnd.macaroonPath (Config.Node.lnd (Config.node config))
     = Some (Config.mockMacaroonPath cwd path_resolve)
  /\ Config.Node.connectionType (Config.node config)
     = or_else (Config.env p !! "CONNECTION_TYPE") "mock"
  /\ exists written,
       Config.fs_log p' = Config.fs_log p ++ written
       /\ Forall (fun c => c ∈ [Config.Mkdir (Config.mockDir cwd path_resolve);
                                Config.WriteFile (Config.mockCertPath cwd path_resolve)
                                  "MOCK TLS CERTIFICATE";
                                Config.WriteFile (Config.mockMacaroonPath cwd path_resolve)
                                  "MOCK MACAROON"])
            written.
Proof.
  intros Hrun Hmock. apply getConfig_returns in Hrun as (Hsetup & _ & ->).
  pose proof (setup_in_mock_mode existsSync mkdirSync writeFileSync cwd path_resolve
                sanitizeErrorMessage p Hmock) as [Hlog Henv].
  rewrite Hsetup in Hlog, Henv. cbn [fst snd] in Hlog, Henv.
  cbn [Config.config_of Config.node Config.Node.connectionType Config.Node.lnd
       Config.Lnd.tlsCertPath Config.Lnd.macaroonPath].
  rewrite Henv. repeat split.
  - rewrite lookup_insert_ne by discriminate. apply lookup_insert_eq.
  - apply lookup_insert_eq.
  - rewrite !lookup_insert_ne by discriminate. now rewrite Hmock.
  - exact Hlog.
Qed.

(** X24: the LND port of a returned configuration is the default '10009'
    when LND_PORT is not set or empty, and otherwise the value of LND_PORT as
    it is, which then parses to an integer between 1 and 65535. *)
Theorem lnd_port_checked_or_default (p p' : Config.Process FS)
  (config : Config.Config) :
  Config.getConfig existsSync mkdirSync writeFileSync cwd path_resolve
    sanitizeErrorMessage p = (Normal config, p') ->
  (Config.truthy (Config.env p !! "LND_PORT") = false
   /\ Config.Lnd.port (Config.Node.lnd (Config.node config)) = "10009")
  \/ exists s n,
       Config.env p !! "LND_PORT" = Some s
       /\ Config.Lnd.port (Config.Node.lnd (Config.node config)) = s
       /\ Config.parseInt s = Some n
       /\ (1 <= n <= 65535)%Z.
Proof.
  intros Hrun. apply getConfig_returns in Hrun as (Hsetup & Hvalid & ->).
  apply validation_passes in Hvalid as (_ & _ & _ & Hport).
  rewrite <- (getConfig_env existsSync mkdirSync writeFileSync cwd path_resolve
                sanitizeErrorMessage p p' "LND_PORT" Hsetup) by discriminate.
  cbn [Config.config_of Config.node Config.Node.lnd Config.Lnd.port].
  unfold Config.lnd_port_error in Hport.
  destruct (Config.env p' !! "LND_PORT") as [s|]; [|left; split; reflexivity].
  cbn [Config.truthy Config.interpolate or_else] in *.
  destruct (String.eqb s "") eqn:Hempty; cbn [negb andb] in *;
    [left; split; reflexivity|].
  right. unfold Config.invalid_port in Hport.
  destruct (Config.parseInt s) as [n|] eqn:Hparse; [|discriminate].
  destruct ((n <=? 0)%Z || (65535 <? n)%Z) eqn:Hrange; [discriminate|].
  apply orb_false_iff in Hrange as [H1 H2].
  apply Z.leb_gt in H1. apply Z.ltb_ge in H2.
  exists s, n. split; [reflexivity|]. split; [reflexivity|].
  split; [exact Hparse|]. lia.
Qed.

End ConfigProperties.

(** ** The further properties at the sample inputs *)

(** X4: the sample portfolio with its resolved aliases and with every alias
    replaced. *)
Lemma summary_ignores_enrichment_sample :
  figures (calculateChannelSummary defaultHealthCriteria Sample.enriched_portfolio)
  = figures (calculateChannelSummary defaultHealthCriteria
               (List.map (fun c => spread c "peer" None) Sample.portfolio))
  /\ option_map channel_of
       (mostImbalancedChannel
          (calculateChannelSummary defaultHealthCriteria Sample.enriched_portfolio))
     = option_map channel_of
         (mostImbalancedChannel
            (calculateChannelSummary defaultHealthCriteria
               (List.map (fun c => spread c "peer" None) Sample.portfolio))).
Proof.
  apply (summary_ignores_enrichment defaultHealthCriteria Sample.enriched_portfolio
           (List.map (fun c => spread c "peer" None) Sample.portfolio)).
  reflexivity.
Defined.

(** X5: a channel of capacity 2^53 before and after two channels of
    capacity 1: the counters agree, the total capacities do not. *)
Lemma counters_order_sample :
  counters (calculateChannelSummary defaultHealthCriteria
              [spread Sample.huge "alice" None; spread Sample.tiny "bob" None;
               spread Sample.tiny "bob" None])
  = counters (calculateChannelSummary defaultHealthCriteria
                [spread Sample.tiny "bob" None; spread Sample.tiny "bob" None;
                 spread Sample.huge "alice" None])
  /\ totalCapacity (calculateChannelSummary defaultHealthCriteria
                      [spread Sample.huge "alice" None; spread Sample.tiny "bob" None;
                       spread Sample.tiny "bob" None])
     = 9007199254740992%float
  /\ totalCapacity (calculateChannelSummary defaultHealthCriteria
                      [spread Sample.tiny "bob" None; spread Sample.tiny "bob" None;
                       spread Sample.huge "alice" None])
     = 9007199254740994%float.
Proof.
  split; [|split; vm_compute; reflexivity].
  apply (counters_order_independent defaultHealthCriteria
           [spread Sample.huge "alice" None; spread Sample.tiny "bob" None;
            spread Sample.tiny "bob" None]
           [spread Sample.tiny "bob" None; spread Sample.tiny "bob" None;
            spread Sample.huge "alice" None]).
  etransitivity; [apply perm_swap|]. apply perm_skip, perm_swap.
Defined.

(** X7 at the channel of capacity 0, which is active and holds nothing: it
    is healthy. *)
Lemma zero_capacity_sample :
  (forall st, imbalance_step st (spread Sample.second_to_alice "alice" None) = st)
  /\ (unhealthy_filter defaultHealthCriteria (spread Sample.second_to_alice "alice" None)
      = true
      <-> Enriched.active (spread Sample.second_to_alice "alice" None) = false
          \/ (number_lt 0 (Enriched.local_balance
                             (spread Sample.second_to_alice "alice" None))
              /\ number_lt (maxLocalRatio defaultHealthCriteria) infinity)
          \/ (number_lt (Enriched.local_balance
                           (spread Sample.second_to_alice "alice" None)) 0
              /\ number_lt neg_infinity (minLocalRatio defaultHealthCriteria)))
  /\ unhealthy_filter defaultHealthCriteria (spread Sample.second_to_alice "alice" None)
     = false.
Proof.
  destruct (zero_capacity_channel defaultHealthCriteria
              (spread Sample.second_to_alice "alice" None) eq_refl)
    as (Hstep & Hfilter & _).
  split; [exact Hstep|]. split; [exact Hfilter|]. vm_compute. reflexivity.
Defined.

(** X9 at the sample portfolio. *)
Lemma lookup_order_sample :
  calls (addNodeAliases Sample.connected Sample.nodeInfo Sample.sanitize Sample.portfolio)
  = GetLnd :: List.map GetNodeInfo
                (first_occurrences (List.map remote_pubkey Sample.portfolio))
  /\ node_info_lookups
       (calls (addNodeAliases Sample.connected Sample.nodeInfo Sample.sanitize
                 Sample.portfolio))
     = first_occurrences (List.map remote_pubkey Sample.portfolio).
Proof.
  apply (lookups_in_order_of_first_occurrence Sample.connected Sample.nodeInfo
           Sample.sanitize Sample.portfolio tt).
  reflexivity.
Defined.



(** X15 for the intent of type 'bogus' over the sample portfolio: with a
    client that always hands out the handle, and with one that fails at the
    second call. *)
Lemma every_intent_sample :
  node_info_lookups
    (snd (handleQuery (Sample.always Sample.connected)
            (fun _ => Normal (ChannelArray Sample.portfolio))
            Sample.nodeInfo Sample.sanitize
            Sample.listView Sample.healthView Sample.liquidityView
            defaultHealthCriteria Sample.bogus))
  = ["02aa"; "03bb"; "03cc"]
  /\ node_info_lookups
       (snd (handleQuery Sample.flaky
               (fun _ => Normal (ChannelArray Sample.portfolio))
               Sample.nodeInfo Sample.sanitize
               Sample.listView Sample.healthView Sample.liquidityView
               defaultHealthCriteria Sample.bogus))
     = []
  /\ List.filter (fun c => match c with GetLnd => true | _ => false end)
       (snd (handleQuery Sample.flaky
               (fun _ => Normal (ChannelArray Sample.portfolio))
               Sample.nodeInfo Sample.sanitize
               Sample.listView Sample.healthView Sample.liquidityView
               defaultHealthCriteria Sample.bogus))
     = [GetLnd; GetLnd].
Proof.
  split; [|split].
  - apply (every_intent_fetches_and_enriches (Sample.always Sample.connected)
             (fun _ => Normal (ChannelArray Sample.portfolio))
             Sample.nodeInfo Sample.sanitize
             Sample.listView Sample.healthView Sample.liquidityView
             defaultHealthCriteria Sample.bogus Sample.portfolio).
    reflexivity.
  - apply (every_intent_fetches_and_enriches Sample.flaky
             (fun _ => Normal (ChannelArray Sample.portfolio))
             Sample.nodeInfo Sample.sanitize
             Sample.listView Sample.healthView Sample.liquidityView
             defaultHealthCriteria Sample.bogus Sample.portfolio).
    reflexivity.
  - apply (every_intent_fetches_and_enriches Sample.flaky
             (fun _ => Normal (ChannelArray Sample.portfolio))
             Sample.nodeInfo Sample.sanitize
             Sample.listView Sample.healthView Sample.liquidityView
             defaultHealthCriteria Sample.bogus Sample.portfolio).
    reflexivity.
Defined.

(** X16 at the direct connection. *)
Lemma port_in_range_sample :
  exists s n,
    Config.env ConfigSample.direct !! "PORT" = Some s
    /\ s <> ""
    /\ Config.parseInt s = Some n
    /\ (1 <= n <= 65535)%Z
    /\ Config.Server.port
         (Config.server (Config.config_of (Config.env ConfigSample.direct))) = Some n.
Proof.
  apply (getConfig_port_in_range ConfigSample.existsSync ConfigSample.mkdirSync
           ConfigSample.writeFileSync ConfigSample.cwd ConfigSample.path_resolve
           ConfigSample.sanitize ConfigSample.direct ConfigSample.direct).
  reflexivity.
Defined.

(** X17 at the process with nothing set. *)
Lemma missing_port_sample :
  ConfigSample.getConfig ConfigSample.bare
  = (Throw {| message := "Invalid server port: undefined" |}, ConfigSample.bare).
Proof.
  apply (proj2 (missing_port_rejected ConfigSample.existsSync ConfigSample.mkdirSync
                  ConfigSample.writeFileSync ConfigSample.cwd ConfigSample.path_resolve
                  ConfigSample.sanitize ConfigSample.bare eq_refl));
    reflexivity.
Defined.

(** X18 at the Lightning Node Connect set-up. *)
Lemma lnc_section_sample :
  Config.Node.lnc (Config.node (Config.config_of (Config.env ConfigSample.remote)))
  = Some {| Config.Lnc.connectionString := Some "pairing-data";
            Config.Lnc.pairingPhrase := None |}
  /\ Config.env ConfigSample.remote !! "CONNECTION_TYPE" = Some "lnc".
Proof.
  split; [reflexivity|].
  apply (proj2 (lnc_section_iff_lnc ConfigSample.existsSync ConfigSample.mkdirSync
                  ConfigSample.writeFileSync ConfigSample.cwd ConfigSample.path_resolve
                  ConfigSample.sanitize ConfigSample.remote ConfigSample.remote
                  (Config.config_of (Config.env ConfigSample.remote)) eq_refl)
           {| Config.Lnc.connectionString := Some "pairing-data";
              Config.Lnc.pairingPhrase := None |} eq_refl).
Defined.

(** X19 at the direct connection. *)
Lemma lnd_direct_sample :
  ConfigSample.direct = ConfigSample.direct
  /\ Config.Node.connectionType
       (Config.node (Config.config_of (Config.env ConfigSample.direct))) = "lnd-direct"
  /\ exists cert macaroon,
       Config.Lnd.tlsCertPath
         (Config.Node.lnd (Config.node (Config.config_of (Config.env ConfigSample.direct))))
       = Some cert
       /\ Config.Lnd.macaroonPath
            (Config.Node.lnd (Config.node (Config.config_of (Config.env ConfigSample.direct))))
          = Some macaroon
       /\ cert <> "" /\ macaroon <> ""
       /\ ConfigSample.existsSync (Config.fs ConfigSample.direct) cert = true
       /\ ConfigSample.existsSync (Config.fs ConfigSample.direct) macaroon = true.
Proof.
  apply (lnd_direct_files_exist ConfigSample.existsSync ConfigSample.mkdirSync
           ConfigSample.writeFileSync ConfigSample.cwd ConfigSample.path_resolve
           ConfigSample.sanitize ConfigSample.direct ConfigSample.direct
           (Config.config_of (Config.env ConfigSample.direct)));
    reflexivity.
Defined.

(** X20 at the process with only a port: no file is looked for, and the
    connection type is 'lnd-direct'. *)
Lemma files_unchecked_sample :
  fst (ConfigSample.getConfig ConfigSample.port_only)
  = fst (ConfigSample.getConfig
           {| Config.env := Config.env ConfigSample.port_only;
              Config.fs := ["/etc/lnd/tls.cert"];
              Config.fs_log := Config.fs_log ConfigSample.port_only |})
  /\ Config.Node.connectionType
       (Config.node (Config.config_of (Config.env ConfigSample.port_only)))
     = "lnd-direct".
Proof.
  destruct (files_unchecked_without_lnd_direct ConfigSample.existsSync
              ConfigSample.mkdirSync ConfigSample.writeFileSync ConfigSample.cwd
              ConfigSample.path_resolve ConfigSample.sanitize ConfigSample.port_only
              ["/etc/lnd/tls.cert"] eq_refl eq_refl) as [Hsame Htype].
  split; [exact Hsame|]. apply Htype; reflexivity.
Defined.

(** X21 at the direct connection. *)
Lemma inert_sample :
  snd (ConfigSample.getConfig ConfigSample.direct) = ConfigSample.direct.
Proof.
  apply (getConfig_inert_outside_mock_mode ConfigSample.existsSync
           ConfigSample.mkdirSync ConfigSample.writeFileSync ConfigSample.cwd
           ConfigSample.path_resolve ConfigSample.sanitize ConfigSample.direct).
  reflexivity.
Defined.

(** X22 once the mock files exist. *)
Lemma mock_setup_sample :
  Config.fs
    (snd (Config.setupMockLndIfNeeded ConfigSample.existsSync ConfigSample.mkdirSync
            ConfigSample.writeFileSync ConfigSample.cwd ConfigSample.path_resolve
            ConfigSample.mock_again))
  = Config.fs ConfigSample.mock_again.
Proof.
  rewrite (mock_setup_with_files_present ConfigSample.existsSync
             ConfigSample.mkdirSync ConfigSample.writeFileSync ConfigSample.cwd
             ConfigSample.path_resolve ConfigSample.mock_again
             eq_refl eq_refl eq_refl eq_refl).
  reflexivity.
Defined.

(** X23 in mock mode on an empty file system. *)
Lemma mock_configuration_sample :
  Config.fs_log (snd (ConfigSample.getConfig ConfigSample.mock))
  = [Config.Mkdir "/srv/app/mock";
     Config.WriteFile "/srv/app/mock/mock-cert.pem" "MOCK TLS CERTIFICATE";
     Config.WriteFile "/srv/app/mock/mock-macaroon" "MOCK MACAROON"]
  /\ exists config,
       fst (ConfigSample.getConfig ConfigSample.mock) = Normal config
       /\ Config.Lnd.tlsCertPath (Config.Node.lnd (Config.node config))
          = Some "/srv/app/mock/mock-cert.pem"
       /\ Config.Node.connectionType (Config.node config) = "mock".
Proof.
  split; [reflexivity|].
  destruct (ConfigSample.getConfig ConfigSample.mock) as [[config|error] p'] eqn:Hrun;
    [|discriminate].
  exists config. split; [reflexivity|].
  destruct (mock_configuration ConfigSample.existsSync ConfigSample.mkdirSync
              ConfigSample.writeFileSync ConfigSample.cwd ConfigSample.path_resolve
              ConfigSample.sanitize ConfigSample.mock p' config Hrun eq_refl)
    as (Hcert & _ & Htype & _).
  split; [exact Hcert|exact Htype].
Defined.

(** X24 at the direct connection. *)
Lemma lnd_port_sample :
  (Config.truthy (Config.env ConfigSample.direct !! "LND_PORT") = false
   /\ Config.Lnd.port
        (Config.Node.lnd (Config.node (Config.config_of (Config.env ConfigSample.direct))))
      = "10009")
  \/ exists s n,
       Config.env ConfigSample.direct !! "LND_PORT" = Some s
       /\ Config.Lnd.port
            (Config.Node.lnd
               (Config.node (Config.config_of (Config.env ConfigSample.direct)))) = s
       /\ Config.parseInt s = Some n
       /\ (1 <= n <= 65535)%Z.
Proof.
  apply (lnd_port_checked_or_default ConfigSample.existsSync ConfigSample.mkdirSync
           ConfigSample.writeFileSync ConfigSample.cwd ConfigSample.path_resolve
           ConfigSample.sanitize ConfigSample.direct ConfigSample.direct).
  reflexivity.
Defined.
